(** * Verification of the C++ client of the live visualizer
      (src/integration/cpp_visualizer_client.{hpp,cpp})

    The client turns each public operation into one HTTP exchange
    ([makeRequest], performed by libcurl) and interprets the response text.
    The JSON library (nlohmann::json) and libcurl are external
    collaborators: JSON values, their compact serialisation [dump] (strict
    UTF-8 handling) and the object ordering of [std::map] are modelled here;
    decoding ([json::parse]) and [curl_easy_perform] are parameters of the
    operations. *)

From Stdlib Require Import ZArith Bool List String Ascii Lia.
From Stdlib Require Import Numbers.DecimalString.
Import ListNotations.
Open Scope string_scope.
Open Scope Z_scope.
Set Warnings "-register-all".

(** ** Strings and bytes *)

Definition byte_of (c : ascii) : Z := Z.of_N (N_of_ascii c).
Definition chr (n : Z) : ascii := ascii_of_N (Z.to_N n).
Definition str1 (c : ascii) : string := String c EmptyString.

(** the double quote character, 0x22 *)
Definition dq : string := str1 "034"%char.
Definition quoted (s : string) : string := dq ++ s ++ dq.

(** [std::string::empty] *)
Definition str_empty (s : string) : bool :=
  match s with EmptyString => true | _ => false end.

Fixpoint is_prefix (p s : string) : bool :=
  match p, s with
  | EmptyString, _ => true
  | String a p', String b s' => Ascii.eqb a b && is_prefix p' s'
  | String _ _, EmptyString => false
  end.

(** [s.find(p) != std::string::npos] *)
Fixpoint str_contains (p s : string) : bool :=
  is_prefix p s ||
  match s with
  | EmptyString => false
  | String _ s' => str_contains p s'
  end.

(** [std::to_string(int)] and the integer case of [json::dump] *)
Definition Z_to_string (z : Z) : string :=
  NilEmpty.string_of_int (Z.to_int z).

(** ** JSON values (nlohmann::json)

    [number_float] is not modelled: integers (signed and unsigned) are
    [JInt]. Objects are [std::map<std::string, json>]: association lists
    sorted by key under the byte-wise order of [std::string]. *)

Inductive json : Type :=
| JNull
| JBool (b : bool)
| JInt (z : Z)
| JStr (s : string)
| JArr (l : list json)
| JObj (kv : list (string * json)).

(** [std::map::emplace]: insert the key unless present *)
Fixpoint map_emplace (k : string) (v : json) (m : list (string * json))
  : list (string * json) :=
  match m with
  | [] => [(k, v)]
  | (k', v') :: m' =>
      match String.compare k k' with
      | Lt => (k, v) :: m
      | Eq => m
      | Gt => (k', v') :: map_emplace k v m'
      end
  end.

(** [std::map::operator[](k) = v]: insert or overwrite *)
Fixpoint map_assign (k : string) (v : json) (m : list (string * json))
  : list (string * json) :=
  match m with
  | [] => [(k, v)]
  | (k', v') :: m' =>
      match String.compare k k' with
      | Lt => (k, v) :: m
      | Eq => (k, v) :: m'
      | Gt => (k', v') :: map_assign k v m'
      end
  end.

Fixpoint map_find (k : string) (m : list (string * json)) : option json :=
  match m with
  | [] => None
  | (k', v') :: m' => if String.eqb k k' then Some v' else map_find k m'
  end.

(** The initializer-list constructor [json{{"k1", v1}, {"k2", v2}, ...}]
    of an object: each pair is emplaced in turn. *)
Definition json_object (kvs : list (string * json)) : json :=
  JObj (fold_left (fun m kv => map_emplace (fst kv) (snd kv) m) kvs []).

(** [j.contains(k)]: false on every non-object *)
Definition json_contains (j : json) (k : string) : bool :=
  match j with
  | JObj m => match map_find k m with Some _ => true | None => false end
  | _ => false
  end.

(** [j[k]] on an object that contains [k] *)
Definition json_at (j : json) (k : string) : json :=
  match j with
  | JObj m => match map_find k m with Some v => v | None => JNull end
  | _ => JNull
  end.

(** [j["k"] = v] (operator[] on an object) *)
Definition json_set (j : json) (k : string) (v : json) : json :=
  match j with
  | JObj m => JObj (map_assign k v m)
  | _ => JObj [(k, v)]
  end.

(** ** Serialisation: [json::dump()] with the default strict error handler

    [dump_escaped] runs a UTF-8 decoder over each string (keys included);
    an ill-formed sequence raises [type_error.316]. Well-formed text is
    copied, except that the quote, the backslash and the control characters
    below 0x20 are escaped. *)

Definition in_range (lo hi b : Z) : bool := (lo <=? b) && (b <=? hi).
Definition cont (b : Z) : bool := in_range 128 191 b.

(** Well-formed UTF-8 (Unicode Table 3-7), on the byte values *)
Fixpoint utf8_ok (bs : list Z) : bool :=
  match bs with
  | [] => true
  | b :: r =>
      if b <? 128 then utf8_ok r
      else if in_range 194 223 b then
        match r with c :: r' => cont c && utf8_ok r' | [] => false end
      else if in_range 224 239 b then
        match r with
        | c1 :: c2 :: r' =>
            (if b =? 224 then in_range 160 191 c1
             else if b =? 237 then in_range 128 159 c1 else cont c1)
            && cont c2 && utf8_ok r'
        | _ => false
        end
      else if in_range 240 244 b then
        match r with
        | c1 :: c2 :: c3 :: r' =>
            (if b =? 240 then in_range 144 191 c1
             else if b =? 244 then in_range 128 143 c1 else cont c1)
            && cont c2 && cont c3 && utf8_ok r'
        | _ => false
        end
      else false
  end.

Definition bytes_of (s : string) : list Z := map byte_of (list_ascii_of_string s).

Definition hex_digit (n : Z) : ascii :=
  if n <? 10 then chr (48 + n) else chr (87 + n).

(** the escape of one byte of a well-formed string *)
Definition escape_char (c : ascii) : string :=
  let b := byte_of c in
  if b =? 8 then "\b"
  else if b =? 9 then "\t"
  else if b =? 10 then "\n"
  else if b =? 12 then "\f"
  else if b =? 13 then "\r"
  else if b =? 34 then str1 "\"%char ++ dq
  else if b =? 92 then "\\"
  else if b <? 32 then "\u00" ++ str1 (hex_digit (b / 16)) ++ str1 (hex_digit (b mod 16))
  else str1 c.

Fixpoint escape_all (s : string) : string :=
  match s with
  | EmptyString => EmptyString
  | String c s' => escape_char c ++ escape_all s'
  end.

Inductive exn : Type :=
| type_error (id : Z)
| parse_error
| user_exception (tag : nat).

Definition dump_escaped (s : string) : option string :=
  if utf8_ok (bytes_of s) then Some (escape_all s) else None.

Definition dump_string (s : string) : option string :=
  match dump_escaped s with Some e => Some (quoted e) | None => None end.

Fixpoint join_opt (sep : string) (l : list (option string)) : option string :=
  match l with
  | [] => Some EmptyString
  | [x] => x
  | x :: l' =>
      match x, join_opt sep l' with
      | Some a, Some b => Some (a ++ sep ++ b)
      | _, _ => None
      end
  end.

(** [j.dump()]: compact output, [None] when [type_error.316] is raised *)
Fixpoint dump (j : json) : option string :=
  match j with
  | JNull => Some "null"
  | JBool true => Some "true"
  | JBool false => Some "false"
  | JInt z => Some (Z_to_string z)
  | JStr s => dump_string s
  | JArr l =>
      match join_opt "," (map dump l) with
      | Some b => Some ("[" ++ b ++ "]")
      | None => None
      end
  | JObj m =>
      let dump_kv := fix dump_kv (m : list (string * json)) :=
        match m with
        | [] => []
        | (k, v) :: m' =>
            (match dump_string k, dump v with
             | Some a, Some b => Some (a ++ ":" ++ b)
             | _, _ => None
             end) :: dump_kv m'
        end in
      match join_opt "," (dump_kv m) with
      | Some b => Some ("{" ++ b ++ "}")
      | None => None
      end
  end.

Example dump_sample :
  dump (json_object [("name", JStr "list1"); ("type", JStr "linked_list");
                     ("depth", JInt 1); ("initialSize", JInt (-3))])
  = Some ("{" ++ quoted "depth" ++ ":1," ++ quoted "initialSize" ++ ":-3,"
          ++ quoted "name" ++ ":" ++ quoted "list1" ++ ","
          ++ quoted "type" ++ ":" ++ quoted "linked_list" ++ "}").
Proof. reflexivity. Qed.

Example dump_invalid_utf8 : dump (JStr (str1 (chr 255))) = None.
Proof. reflexivity. Qed.

(** ** The client state and the curl handle

    The handle is the sequence of [curl_easy_setopt] calls made on it since
    [curl_easy_init]; options persist across requests, as on a libcurl
    easy handle. *)

Inductive curl_opt : Type :=
| OPT_WRITEFUNCTION
| OPT_TIMEOUT (secs : Z)
| OPT_CONNECTTIMEOUT (secs : Z)
| OPT_URL (url : string)
| OPT_WRITEDATA
| OPT_POSTFIELDS (body : string)
| OPT_POST (v : Z)
| OPT_CUSTOMREQUEST (verb : string)
| OPT_HTTPGET (v : Z)
| OPT_HTTPHEADER (headers : list string).

Definition curl_handle := list curl_opt.

Record VisualizerClient : Type := mkClient {
  base_url_ : string;
  curl_ : option curl_handle;   (* [None]: [curl_easy_init] returned null *)
  verbose_ : bool
}.

(** the constructor, given the outcome of [curl_easy_init] *)
Definition new_client (base_url : string) (init_ok : bool) : VisualizerClient :=
  mkClient base_url
    (if init_ok
     then Some [OPT_WRITEFUNCTION; OPT_TIMEOUT 10; OPT_CONNECTTIMEOUT 5]
     else None)
    false.

Definition setVerbose (v : bool) (c : VisualizerClient) : VisualizerClient :=
  mkClient (base_url_ c) (curl_ c) v.

(** The public calls of the client, as an application makes them. *)
Inductive api_call : Type :=
| CCreateStructure (name type : string) (depth initial_size : Z)
| CAddNode (structure_name : string) (value : json) (index : Z)
           (metadata : list (string * json))
| CRemoveNode (structure_name : string) (node_id : Z)
| CUpdateNode (structure_name : string) (node_id : Z) (value : json)
              (metadata : list (string * json))
| CGetStructure (structure_name : string)
| CGetAllStructures
| CGetMatrix
| CDeleteStructure (structure_name : string)
| CIsConnected.

(** The world: the client, the lines written to [std::cerr] and, as ghost
    state, the public calls made so far. *)
Record world : Type := mkWorld {
  cl : VisualizerClient;
  err_out : list string;
  calls : list api_call
}.

(** ** A state and exception monad for C++ code that may throw *)

Inductive result (A : Type) : Type :=
| Ok (a : A)
| Exc (e : exn).
Arguments Ok {A} a.
Arguments Exc {A} e.

Definition M (A : Type) : Type := world -> result A * world.

Definition ret {A} (a : A) : M A := fun w => (Ok a, w).
Definition throw {A} (e : exn) : M A := fun w => (Exc e, w).
Definition bind {A B} (m : M A) (k : A -> M B) : M B :=
  fun w => match m w with
           | (Ok a, w') => k a w'
           | (Exc e, w') => (Exc e, w')
           end.
(** [try { m } catch (const std::exception& e) { h(e) }] *)
Definition try_catch {A} (m : M A) (h : exn -> M A) : M A :=
  fun w => match m w with
           | (Ok a, w') => (Ok a, w')
           | (Exc e, w') => h e w'
           end.

Notation "x <- m ;; k" := (bind m (fun x => k))
  (at level 61, m at next level, right associativity).
Notation "m ;;; k" := (bind m (fun _ => k))
  (at level 61, right associativity).

Definition get_client : M VisualizerClient := fun w => (Ok (cl w), w).
Definition set_curl (h : curl_handle) : M unit :=
  fun w => (Ok tt, mkWorld (mkClient (base_url_ (cl w)) (Some h) (verbose_ (cl w)))
                           (err_out w) (calls w)).
Definition record_call (c : api_call) : M unit :=
  fun w => (Ok tt, mkWorld (cl w) (err_out w) (app (calls w) [c])).

(** [VisualizerClient::logError] *)
Definition logError (message : string) : M unit :=
  fun w => (Ok tt, if verbose_ (cl w)
                   then mkWorld (cl w) (app (err_out w) ["[VisualizerClient] " ++ message]) (calls w)
                   else w).

Definition what (e : exn) : string :=
  match e with
  | type_error id => "type_error " ++ Z_to_string id
  | parse_error => "parse_error"
  | user_exception _ => "exception"
  end.

(** [VisualizerClient::WriteCallback]: [contents] holds the bytes curl
    hands over (at least [size * nmemb] of them); [size_t] arithmetic is
    modulo 2^64. Returns the count reported to curl and the new [*data]. *)
Definition WriteCallback (contents : string) (size nmemb : Z) (data : string) : Z * string :=
  let total_size := (size * nmemb) mod 2 ^ 64 in
  (total_size, data ++ substring 0 (Z.to_nat total_size) contents).

(** curl delivering a response body in chunks, each with [size = 1]: the
    counts returned and the final [response_data] *)
Fixpoint deliver (chunks : list string) (data : string) : list Z * string :=
  match chunks with
  | [] => ([], data)
  | c :: cs =>
      let '(n, d) := WriteCallback c 1 (Z.of_nat (String.length c)) data in
      let '(ns, d') := deliver cs d in
      (n :: ns, d')
  end.

(** ** VisualizerClient (cpp_visualizer_client.cpp)

    [perform] is [curl_easy_perform] on the configured handle: [Some body]
    when it returns [CURLE_OK] with [body] collected by [WriteCallback],
    [None] otherwise. [parse] is [json::parse]: [None] when it throws
    [parse_error]. *)

Section Operations.

Variable perform : curl_handle -> option string.
Variable parse : string -> option json.

Definition json_parse (s : string) : M json :=
  match parse s with Some j => ret j | None => throw parse_error end.

(** [static_cast<int>] of a 64-bit integer: reduction modulo 2^32 *)
Definition wrap32 (z : Z) : Z :=
  let m := z mod 2 ^ 32 in if m <? 2 ^ 31 then m else m - 2 ^ 32.

(** the implicit conversion [json -> int] ([get<int>()]) *)
Definition json_to_int (j : json) : M Z :=
  match j with
  | JInt z => ret (wrap32 z)
  | JBool b => ret (if b then 1 else 0)
  | _ => throw (type_error 302)
  end.

Definition makeRequest (method endpoint : string) (data : json) : M string :=
  c <- get_client ;;
  match curl_ c with
  | None => logError "CURL not initialized" ;;; ret ""
  | Some h0 =>
      let url := base_url_ c ++ endpoint in
      let h1 := (h0 ++ [OPT_URL url; OPT_WRITEDATA])%list in
      let headers := ["Content-Type: application/json"] in
      h2 <- (if String.eqb method "POST" || String.eqb method "PUT" then
               match dump data with
               | None => set_curl h1 ;;; throw (type_error 316)
               | Some json_string =>
                   ret (h1 ++ [OPT_POSTFIELDS json_string] ++
                        (if String.eqb method "POST" then [OPT_POST 1]
                         else [OPT_CUSTOMREQUEST "PUT"]))%list
               end
             else if String.eqb method "DELETE" then ret (h1 ++ [OPT_CUSTOMREQUEST "DELETE"])%list
             else ret (h1 ++ [OPT_HTTPGET 1])%list) ;;
      let h3 := (h2 ++ [OPT_HTTPHEADER headers])%list in
      set_curl h3 ;;;
      match perform h3 with
      | None => logError "CURL request failed: " ;;; ret ""
      | Some response_data => ret response_data
      end
  end.

Definition createStructure (name type : string) (depth initial_size : Z) : M bool :=
  let data := json_object [("name", JStr name); ("type", JStr type);
                           ("depth", JInt depth); ("initialSize", JInt initial_size)] in
  response <- makeRequest "POST" "/api/live/structure" data ;;
  ret (negb (str_empty response) && str_contains (quoted "id") response).

(** the request body built by [addNode] *)
Definition addNode_data (value : json) (index : Z) (metadata : list (string * json)) : json :=
  let data := json_object [("value", value); ("metadata", JObj metadata)] in
  if index >=? 0 then json_set data "index" (JInt index) else data.

Definition addNode (structure_name : string) (value : json) (index : Z)
    (metadata : list (string * json)) : M Z :=
  let data := addNode_data value index metadata in
  let endpoint := "/api/live/structure/" ++ structure_name ++ "/node" in
  response <- makeRequest "POST" endpoint data ;;
  try_catch
    (result <- json_parse response ;;
     if json_contains result "node" && json_contains (json_at result "node") "id"
     then json_to_int (json_at (json_at result "node") "id")
     else ret (-1))
    (fun e => logError ("Failed to parse addNode response: " ++ what e) ;;; ret (-1)).

Definition removeNode (structure_name : string) (node_id : Z) : M bool :=
  let endpoint := "/api/live/structure/" ++ structure_name ++ "/node/" ++ Z_to_string node_id in
  response <- makeRequest "DELETE" endpoint JNull ;;
  ret (negb (str_empty response) && negb (str_contains "error" response)).

(** the request body built by [updateNode] *)
Definition updateNode_data (value : json) (metadata : list (string * json)) : json :=
  json_object [("value", value); ("metadata", JObj metadata)].

Definition updateNode (structure_name : string) (node_id : Z) (value : json)
    (metadata : list (string * json)) : M bool :=
  let data := updateNode_data value metadata in
  let endpoint := "/api/live/structure/" ++ structure_name ++ "/node/" ++ Z_to_string node_id in
  response <- makeRequest "PUT" endpoint data ;;
  ret (negb (str_empty response) && negb (str_contains "error" response)).

Definition getStructure (structure_name : string) : M json :=
  let endpoint := "/api/live/structure/" ++ structure_name in
  response <- makeRequest "GET" endpoint JNull ;;
  try_catch (json_parse response)
    (fun e => logError ("Failed to parse getStructure response: " ++ what e) ;;; ret JNull).

Definition getAllStructures : M (list json) :=
  response <- makeRequest "GET" "/api/live/structures" JNull ;;
  try_catch
    (result <- json_parse response ;;
     match result with JArr l => ret l | _ => ret [] end)
    (fun e => logError ("Failed to parse getAllStructures response: " ++ what e) ;;; ret []).

Definition getMatrix : M json :=
  response <- makeRequest "GET" "/api/live/matrix" JNull ;;
  try_catch (json_parse response)
    (fun e => logError ("Failed to parse getMatrix response: " ++ what e) ;;; ret JNull).

Definition deleteStructure (structure_name : string) : M bool :=
  let endpoint := "/api/live/structure/" ++ structure_name in
  response <- makeRequest "DELETE" endpoint JNull ;;
  ret (negb (str_empty response) && negb (str_contains "error" response)).

Definition isConnected : M bool :=
  response <- makeRequest "GET" "/api/live/structures" JNull ;;
  ret (negb (str_empty response)).

End Operations.

(** The value a public call returns. *)
Inductive ret_val : Type :=
| RBool (b : bool)
| RInt (z : Z)
| RJson (j : json)
| RList (l : list json).

Section Dispatch.

Variable perform : curl_handle -> option string.
Variable parse : string -> option json.

Definition fmap {A B} (f : A -> B) (m : M A) : M B := a <- m ;; ret (f a).

(** the operation a call runs *)
Definition run_op (c : api_call) : M ret_val :=
  match c with
  | CCreateStructure n t d s => fmap RBool (createStructure perform n t d s)
  | CAddNode n v i md => fmap RInt (addNode perform parse n v i md)
  | CRemoveNode n id => fmap RBool (removeNode perform n id)
  | CUpdateNode n id v md => fmap RBool (updateNode perform n id v md)
  | CGetStructure n => fmap RJson (getStructure perform parse n)
  | CGetAllStructures => fmap RList (getAllStructures perform parse)
  | CGetMatrix => fmap RJson (getMatrix perform parse)
  | CDeleteStructure n => fmap RBool (deleteStructure perform n)
  | CIsConnected => fmap RBool (isConnected perform)
  end.

(** the request [makeRequest] is given for a call: verb, endpoint, body *)
Definition request_of (c : api_call) : string * string * json :=
  match c with
  | CCreateStructure n t d s =>
      ("POST", "/api/live/structure",
       json_object [("name", JStr n); ("type", JStr t);
                    ("depth", JInt d); ("initialSize", JInt s)])
  | CAddNode n v i md => ("POST", "/api/live/structure/" ++ n ++ "/node", addNode_data v i md)
  | CRemoveNode n id =>
      ("DELETE", "/api/live/structure/" ++ n ++ "/node/" ++ Z_to_string id, JNull)
  | CUpdateNode n id v md =>
      ("PUT", "/api/live/structure/" ++ n ++ "/node/" ++ Z_to_string id, updateNode_data v md)
  | CGetStructure n => ("GET", "/api/live/structure/" ++ n, JNull)
  | CGetAllStructures => ("GET", "/api/live/structures", JNull)
  | CGetMatrix => ("GET", "/api/live/matrix", JNull)
  | CDeleteStructure n => ("DELETE", "/api/live/structure/" ++ n, JNull)
  | CIsConnected => ("GET", "/api/live/structures", JNull)
  end.

(** the text [makeRequest] yields for a call in a world *)
Definition response_of (c : api_call) (w : world) : result string :=
  let '(m, e, d) := request_of c in fst (makeRequest perform m e d w).

(** an application calling the client: the call is recorded, then run *)
Definition dispatch (c : api_call) : M ret_val := record_call c ;;; run_op c.

(** ** ManagedStructure (cpp_visualizer_client.hpp) *)

Inductive managed_op : Type :=
| MAddNode (value : json) (index : Z) (metadata : list (string * json))
| MRemoveNode (node_id : Z)
| MUpdateNode (node_id : Z) (value : json) (metadata : list (string * json))
| MGetStructure.

(** the delegate methods: the bound name is prefilled *)
Definition forward (name_ : string) (op : managed_op) : api_call :=
  match op with
  | MAddNode v i md => CAddNode name_ v i md
  | MRemoveNode id => CRemoveNode name_ id
  | MUpdateNode id v md => CUpdateNode name_ id v md
  | MGetStructure => CGetStructure name_
  end.

(** The code of the scope that owns a ManagedStructure: calls through the
    structure, calls on the client, a thrown exception or an early
    return. *)
Inductive scope_step : Type :=
| SManaged (op : managed_op)
| SClient (c : api_call)
| SRaise (e : exn)
| SReturn.

Fixpoint run_scope (name_ : string) (body : list scope_step) : M unit :=
  match body with
  | [] => ret tt
  | SManaged op :: body' => dispatch (forward name_ op) ;;; run_scope name_ body'
  | SClient c :: body' => dispatch c ;;; run_scope name_ body'
  | SRaise e :: _ => throw e
  | SReturn :: _ => ret tt
  end.

(** [ManagedStructure(client, name, type, depth)]: [createStructure(name,
    type, depth)] with the default [initial_size = 0]; the result is not
    inspected. *)
Definition ManagedStructure_ctor (name type : string) (depth : Z) : M ret_val :=
  dispatch (CCreateStructure name type depth 0).

(** [~ManagedStructure()] *)
Definition ManagedStructure_dtor (name_ : string) : M ret_val :=
  dispatch (CDeleteStructure name_).

(** A block [{ ManagedStructure s(client, name, type, depth); body }]: when
    the constructor completes, the destructor runs on every exit of the
    block (normal end, return, exception) and the block's outcome is the
    body's; when the constructor throws, no object exists and no destructor
    runs. *)
Definition managed_block (name type : string) (depth : Z) (body : list scope_step)
    : M unit :=
  fun w =>
    match ManagedStructure_ctor name type depth w with
    | (Exc e, w1) => (Exc e, w1)
    | (Ok _, w1) =>
        let '(r, w2) := run_scope name body w1 in
        match ManagedStructure_dtor name w2 with
        | (Ok _, w3) => (r, w3)
        | (Exc e, w3) => (Exc e, w3)
        end
    end.

End Dispatch.

(** The convenience macros of cpp_visualizer_client.hpp, with the default
    arguments they leave to the delegate methods. *)

(** [VIZ_ADD_NODE(structure, value)]: [structure.addNode(value)] *)
Definition VIZ_ADD_NODE (value : json) : managed_op := MAddNode value (-1) [].

(** [VIZ_REMOVE_NODE(structure, id)]: [structure.removeNode(id)] *)
Definition VIZ_REMOVE_NODE (id : Z) : managed_op := MRemoveNode id.

(** [VIZ_UPDATE_NODE(structure, id, value)]: [structure.updateNode(id, value)] *)
Definition VIZ_UPDATE_NODE (id : Z) (value : json) : managed_op := MUpdateNode id value [].

(** ** A decoder: [json::parse] on texts without floating-point numbers

    Used for concrete runs. Texts holding a fraction, an exponent or an
    integer outside the 64-bit ranges (which nlohmann decodes as
    [number_float]) are outside this model and get [None] here. *)

Definition is_ws (c : ascii) : bool :=
  let b := byte_of c in (b =? 32) || (b =? 9) || (b =? 10) || (b =? 13).

Fixpoint skip_ws (cs : list ascii) : list ascii :=
  match cs with
  | c :: r => if is_ws c then skip_ws r else cs
  | [] => []
  end.

Fixpoint strip_prefix (p cs : list ascii) : option (list ascii) :=
  match p, cs with
  | [], _ => Some cs
  | a :: p', c :: cs' => if Ascii.eqb a c then strip_prefix p' cs' else None
  | _ :: _, [] => None
  end.

Definition hex_val (c : ascii) : option Z :=
  let b := byte_of c in
  if in_range 48 57 b then Some (b - 48)
  else if in_range 97 102 b then Some (b - 87)
  else if in_range 65 70 b then Some (b - 55)
  else None.

Definition hex4 (cs : list ascii) : option (Z * list ascii) :=
  match cs with
  | a :: b :: c :: d :: r =>
      match hex_val a, hex_val b, hex_val c, hex_val d with
      | Some x, Some y, Some z, Some t => Some (((x * 16 + y) * 16 + z) * 16 + t, r)
      | _, _, _, _ => None
      end
  | _ => None
  end.

Definition utf8_encode (cp : Z) : list ascii :=
  if cp <? 128 then [chr cp]
  else if cp <? 2048 then [chr (192 + cp / 64); chr (128 + cp mod 64)]
  else if cp <? 65536 then
    [chr (224 + cp / 4096); chr (128 + (cp / 64) mod 64); chr (128 + cp mod 64)]
  else [chr (240 + cp / 262144); chr (128 + (cp / 4096) mod 64);
        chr (128 + (cp / 64) mod 64); chr (128 + cp mod 64)].

(** the code point of a [\uXXXX] escape, with its surrogate pair *)
Definition unicode_escape (cs : list ascii) : option (Z * list ascii) :=
  match hex4 cs with
  | Some (u, r) =>
      if in_range 55296 56319 u then
        match strip_prefix ["\"%char; "u"%char] r with
        | Some r' =>
            match hex4 r' with
            | Some (lo, r'') =>
                if in_range 56320 57343 lo
                then Some (65536 + (u - 55296) * 1024 + (lo - 56320), r'')
                else None
            | None => None
            end
        | None => None
        end
      else if in_range 56320 57343 u then None
      else Some (u, r)
  | None => None
  end.

(** the body of a string literal, after its opening quote *)
Fixpoint parse_str (fuel : nat) (cs : list ascii) (acc : list ascii)
  : option (string * list ascii) :=
  match fuel with
  | O => None
  | S f =>
      match cs with
      | [] => None
      | c :: r =>
          let b := byte_of c in
          if b =? 34 then
            let s := string_of_list_ascii (rev acc) in
            if utf8_ok (bytes_of s) then Some (s, r) else None
          else if b =? 92 then
            match r with
            | [] => None
            | e :: r' =>
                let eb := byte_of e in
                let simple := if (eb =? 34) || (eb =? 92) || (eb =? 47) then Some eb
                              else if eb =? 98 then Some 8
                              else if eb =? 102 then Some 12
                              else if eb =? 110 then Some 10
                              else if eb =? 114 then Some 13
                              else if eb =? 116 then Some 9
                              else None in
                match simple with
                | Some x => parse_str f r' (chr x :: acc)
                | None =>
                    if eb =? 117 then
                      match unicode_escape r' with
                      | Some (cp, r'') => parse_str f r'' (rev (utf8_encode cp) ++ acc)
                      | None => None
                      end
                    else None
                end
            end
          else if b <? 32 then None
          else parse_str f r (c :: acc)
      end
  end.

Fixpoint read_digits (cs : list ascii) (acc : Z) : Z * list ascii :=
  match cs with
  | c :: r => if in_range 48 57 (byte_of c) then read_digits r (acc * 10 + (byte_of c - 48))
              else (acc, cs)
  | [] => (acc, cs)
  end.

Definition parse_number (cs : list ascii) : option (json * list ascii) :=
  let '(neg, r) := match cs with
                   | c :: r => if byte_of c =? 45 then (true, r) else (false, cs)
                   | [] => (false, cs)
                   end in
  let digits := match r with
                | c :: r1 => if byte_of c =? 48 then Some (0, r1)
                             else if in_range 49 57 (byte_of c)
                             then Some (read_digits r1 (byte_of c - 48)) else None
                | [] => None
                end in
  match digits with
  | None => None
  | Some (v, r2) =>
      let is_float := match r2 with
                      | c :: _ => let b := byte_of c in (b =? 46) || (b =? 101) || (b =? 69)
                      | [] => false
                      end in
      let z := if neg then - v else v in
      if is_float || (z <? - 2 ^ 63) || (2 ^ 64 - 1 <? z) then None
      else Some (JInt z, r2)
  end.

Definition lit (s : string) : list ascii := list_ascii_of_string s.

Fixpoint parse_value (fuel : nat) (cs : list ascii) {struct fuel}
  : option (json * list ascii) :=
  match fuel with
  | O => None
  | S f =>
      match skip_ws cs with
      | [] => None
      | c :: r =>
          let b := byte_of c in
          if b =? 123 then
            match skip_ws r with
            | c' :: r' => if byte_of c' =? 125 then Some (JObj [], r')
                          else parse_members f (skip_ws r) []
            | [] => None
            end
          else if b =? 91 then
            match skip_ws r with
            | c' :: r' => if byte_of c' =? 93 then Some (JArr [], r')
                          else parse_elems f (skip_ws r) []
            | [] => None
            end
          else if b =? 34 then
            match parse_str (S (List.length r)) r [] with
            | Some (s, r') => Some (JStr s, r')
            | None => None
            end
          else
            match strip_prefix (lit "true") (c :: r) with
            | Some r' => Some (JBool true, r')
            | None =>
                match strip_prefix (lit "false") (c :: r) with
                | Some r' => Some (JBool false, r')
                | None =>
                    match strip_prefix (lit "null") (c :: r) with
                    | Some r' => Some (JNull, r')
                    | None => parse_number (c :: r)
                    end
                end
            end
      end
  end
with parse_elems (fuel : nat) (cs : list ascii) (acc : list json) {struct fuel}
  : option (json * list ascii) :=
  match fuel with
  | O => None
  | S f =>
      match parse_value f cs with
      | Some (v, r) =>
          match skip_ws r with
          | c :: r' => if byte_of c =? 44 then parse_elems f r' (v :: acc)
                       else if byte_of c =? 93 then Some (JArr (rev (v :: acc)), r')
                       else None
          | [] => None
          end
      | None => None
      end
  end
with parse_members (fuel : nat) (cs : list ascii) (m : list (string * json)) {struct fuel}
  : option (json * list ascii) :=
  match fuel with
  | O => None
  | S f =>
      match skip_ws cs with
      | c :: r =>
          if byte_of c =? 34 then
            match parse_str (S (List.length r)) r [] with
            | Some (k, r1) =>
                match skip_ws r1 with
                | c1 :: r2 =>
                    if byte_of c1 =? 58 then
                      match parse_value f r2 with
                      | Some (v, r3) =>
                          (* a repeated key overwrites: the last one wins *)
                          let m' := map_assign k v m in
                          match skip_ws r3 with
                          | c3 :: r4 => if byte_of c3 =? 44 then parse_members f r4 m'
                                        else if byte_of c3 =? 125 then Some (JObj m', r4)
                                        else None
                          | [] => None
                          end
                      | None => None
                      end
                    else None
                | [] => None
                end
            | None => None
            end
          else None
      | [] => None
      end
  end.

(** [json::parse(text)]: one value, surrounded by white space only *)
Definition json_parse_text (s : string) : option json :=
  let cs := list_ascii_of_string s in
  match parse_value (2 * List.length cs + 2) cs with
  | Some (v, r) => match skip_ws r with [] => Some v | _ => None end
  | None => None
  end.

Example parse_sample :
  json_parse_text ("{" ++ quoted "node" ++ ": {" ++ quoted "id" ++ ": 7, "
                   ++ quoted "value" ++ ": [1, -2, true, null]}}")
  = Some (JObj [("node", JObj [("id", JInt 7);
                               ("value", JArr [JInt 1; JInt (-2); JBool true; JNull])])]).
Proof. reflexivity. Qed.

Example parse_empty : json_parse_text "" = None.
Proof. reflexivity. Qed.

Example parse_roundtrip_sample :
  let v := json_object [("metadata", JObj [("color", JStr "red")]); ("value", JInt 42)] in
  match dump v with Some s => json_parse_text s = Some v | None => False end.
Proof. reflexivity. Qed.

(** * Properties *)

(** ** The result of an action does not depend on the world it runs in *)

Definition stateless {A} (m : M A) : Prop := forall w1 w2, fst (m w1) = fst (m w2).

Lemma stateless_ret {A} (a : A) : stateless (ret a).
Proof. intros w1 w2; reflexivity. Qed.

Lemma stateless_throw {A} (e : exn) : stateless (@throw A e).
Proof. intros w1 w2; reflexivity. Qed.

Lemma stateless_logError msg : stateless (logError msg).
Proof. intros w1 w2; reflexivity. Qed.

Lemma stateless_bind {A B} (m : M A) (k : A -> M B) :
  stateless m -> (forall a, stateless (k a)) -> stateless (bind m k).
Proof.
  intros Hm Hk w1 w2; unfold bind.
  specialize (Hm w1 w2).
  destruct (m w1) as [[a1|e1] w1'], (m w2) as [[a2|e2] w2']; simpl in Hm;
    try discriminate; inversion Hm; subst; simpl; [apply Hk | reflexivity].
Qed.

Lemma stateless_try_catch {A} (m : M A) (h : exn -> M A) :
  stateless m -> (forall e, stateless (h e)) -> stateless (try_catch m h).
Proof.
  intros Hm Hh w1 w2; unfold try_catch.
  specialize (Hm w1 w2).
  destruct (m w1) as [[a1|e1] w1'], (m w2) as [[a2|e2] w2']; simpl in Hm;
    try discriminate; inversion Hm; subst; simpl; [reflexivity | apply Hh].
Qed.

Lemma stateless_json_parse parse s : stateless (json_parse parse s).
Proof. unfold json_parse; destruct (parse s); intros w1 w2; reflexivity. Qed.

Lemma stateless_json_to_int j : stateless (json_to_int j).
Proof. unfold json_to_int; destruct j; intros w1 w2; reflexivity. Qed.

Create HintDb stateless_db.
#[export] Hint Resolve stateless_ret stateless_throw stateless_logError stateless_bind
  stateless_try_catch stateless_json_parse stateless_json_to_int : stateless_db.

Ltac solve_stateless :=
  repeat (intros;
          first [ solve [eauto with stateless_db]
                | apply stateless_bind
                | apply stateless_try_catch
                | match goal with
                  | |- stateless (if ?b then _ else _) => destruct b
                  | |- stateless (match ?x with _ => _ end) => destruct x
                  end ]).

(** the client as constructed with its default address, in a fresh world *)
Definition client0 : VisualizerClient := new_client "http://localhost:5000" true.
Definition world0 : world := mkWorld client0 [] [].

(** An action run after [makeRequest] sees only the response text: its
    result may be computed in any world, here [world0]. *)
Lemma fst_bind_stateless {A B} (m : M A) (k : A -> M B) w :
  (forall a, stateless (k a)) ->
  fst (bind m k w) = match fst (m w) with
                     | Ok a => fst (k a world0)
                     | Exc e => Exc e
                     end.
Proof.
  intros Hk; unfold bind.
  destruct (m w) as [[a|e] w']; simpl; [apply Hk | reflexivity].
Qed.

(** ** [makeRequest] *)

Definition body_method (method : string) : bool :=
  String.eqb method "POST" || String.eqb method "PUT".

Lemma makeRequest_exc perform method endpoint data w e :
  fst (makeRequest perform method endpoint data w) = Exc e ->
  body_method method = true /\ dump data = None /\ e = type_error 316.
Proof.
  unfold makeRequest, bind, get_client, body_method; simpl.
  destruct (curl_ (cl w)) as [h0|]; simpl; [|discriminate].
  destruct (String.eqb method "POST" || String.eqb method "PUT") eqn:Hb.
  - destruct (dump data) as [js|]; simpl.
    + destruct (perform _); simpl; discriminate.
    + intros H; inversion H; auto.
  - destruct (String.eqb method "DELETE"); simpl;
      destruct (perform _); simpl; discriminate.
Qed.

Lemma makeRequest_no_body_ok perform method endpoint data w :
  body_method method = false ->
  exists r, fst (makeRequest perform method endpoint data w) = Ok r.
Proof.
  intros Hb.
  destruct (fst (makeRequest perform method endpoint data w)) as [r|e] eqn:E; eauto.
  apply makeRequest_exc in E; destruct E as [E _]; congruence.
Qed.

(** the handle [makeRequest] hands to [curl_easy_perform] for a GET *)
Definition get_request (h0 : curl_handle) (url : string) : curl_handle :=
  (h0 ++ [OPT_URL url; OPT_WRITEDATA; OPT_HTTPGET 1;
          OPT_HTTPHEADER ["Content-Type: application/json"]])%list.

Lemma makeRequest_get perform endpoint data w :
  fst (makeRequest perform "GET" endpoint data w) =
  Ok (match curl_ (cl w) with
      | None => ""
      | Some h0 => match perform (get_request h0 (base_url_ (cl w) ++ endpoint)) with
                   | Some body => body
                   | None => ""
                   end
      end).
Proof.
  unfold makeRequest, bind, get_client; simpl.
  destruct (curl_ (cl w)) as [h0|]; simpl; [|reflexivity].
  replace (((h0 ++ [OPT_URL (base_url_ (cl w) ++ endpoint); OPT_WRITEDATA]) ++
           [OPT_HTTPGET 1]) ++ [OPT_HTTPHEADER ["Content-Type: application/json"]])%list
    with (get_request h0 (base_url_ (cl w) ++ endpoint))
    by (unfold get_request; rewrite <- !app_assoc; reflexivity).
  destruct (perform _); reflexivity.
Qed.

(** An operation built as [makeRequest] followed by an interpretation of
    the response: rewrite it to a function of the response text. *)
Ltac through_response :=
  repeat (rewrite fst_bind_stateless by solve_stateless).

Definition is_mutation (c : api_call) : bool :=
  match c with
  | CRemoveNode _ _ | CUpdateNode _ _ _ _ | CDeleteStructure _ => true
  | _ => false
  end.


(** the response text of one exchange, whatever the request *)
Definition respond (body : string) : curl_handle -> option string := fun _ => Some body.
Definition transport_down : curl_handle -> option string := fun _ => None.

(** ** C1 *)

(** the success test of [removeNode], [updateNode] and [deleteStructure] *)
Lemma success_test_false r :
  negb (str_empty r) && negb (str_contains "error" r) = false <->
  (r = "" \/ str_contains "error" r = true).
Proof.
  destruct r as [|a r']; cbn [str_empty negb andb].
  - split; auto.
  - destruct (str_contains "error" (String a r')); cbn [negb andb]; split; auto;
      try (intros H; discriminate H); intros [H|H]; discriminate H.
Qed.

(** C1 (counterexample): a transport that answers with an empty body makes
    [removeNode] return false, though the empty text does not contain
    "error". *)
Lemma removeNode_empty_body_false :
  fst (removeNode (respond "") "list1" 7 world0) = Ok false /\
  str_contains "error" "" = false.
Proof. split; reflexivity. Qed.

(** C1 (amended): for every response text [r] that [makeRequest] yields,
    [removeNode], [updateNode] and [deleteStructure] return false if and
    only if [r] is empty or contains the substring "error"; the boolean is
    a function of [r] alone, so equal inputs and equal responses give equal
    results. *)
Theorem mutation_false_iff_empty_or_error perform parse c w r :
  is_mutation c = true ->
  response_of perform c w = Ok r ->
  exists b, fst (run_op perform parse c w) = Ok (RBool b) /\
            (b = false <-> (r = "" \/ str_contains "error" r = true)).
Proof.
  intros Hc Hr.
  destruct c; try discriminate; unfold run_op, fmap, response_of in *;
    cbv beta iota zeta delta [request_of] in Hr;
    [unfold removeNode | unfold updateNode | unfold deleteStructure]; cbv zeta;
    through_response; rewrite Hr; simpl;
    eexists; (split; [reflexivity | apply success_test_false]).
Qed.

Lemma mutation_false_iff_empty_or_error_witness :
  (is_mutation (CDeleteStructure "list1") = true /\
   response_of (respond "") (CDeleteStructure "list1") world0 = Ok "") /\
  exists b, fst (run_op (respond "") json_parse_text (CDeleteStructure "list1") world0)
            = Ok (RBool b) /\ (b = false <-> ("" = "" \/ str_contains "error" "" = true)).
Proof.
  split; [split; reflexivity|].
  apply (mutation_false_iff_empty_or_error (respond "") json_parse_text
           (CDeleteStructure "list1") world0 ""); reflexivity.
Defined.

(** ** C6 *)

Lemma isConnected_fst perform w :
  fst (isConnected perform w) =
  Ok (match curl_ (cl w) with
      | None => false
      | Some h0 => match perform (get_request h0 (base_url_ (cl w) ++ "/api/live/structures")) with
                   | Some body => negb (str_empty body)
                   | None => false
                   end
      end).
Proof.
  unfold isConnected; through_response; rewrite makeRequest_get.
  destruct (curl_ (cl w)) as [h0|]; [destruct (perform _)|]; reflexivity.
Qed.

(** C6: [isConnected] returns true exactly when the listing request
    (GET /api/live/structures) yields a non-empty body, whatever that body
    holds (it is never decoded); it returns false when the transport fails
    and when the curl handle could not be created. *)
Theorem isConnected_iff_nonempty_body perform w :
  (fst (isConnected perform w) = Ok true <->
   exists h0 body,
     curl_ (cl w) = Some h0 /\
     perform (get_request h0 (base_url_ (cl w) ++ "/api/live/structures")) = Some body /\
     body <> "") /\
  (forall h0, curl_ (cl w) = Some h0 ->
   perform (get_request h0 (base_url_ (cl w) ++ "/api/live/structures")) = None ->
   fst (isConnected perform w) = Ok false) /\
  (curl_ (cl w) = None -> fst (isConnected perform w) = Ok false).
Proof.
  rewrite isConnected_fst.
  split; [|split].
  - destruct (curl_ (cl w)) as [h0|].
    + destruct (perform _) as [body|] eqn:Hp.
      * split.
        -- intros H; exists h0, body; repeat split; auto.
           intros ->; discriminate H.
        -- intros (h1 & body' & Hh & Hb & Hne); inversion Hh; subst.
           rewrite Hp in Hb; inversion Hb; subst.
           destruct body'; [congruence | reflexivity].
      * split; [discriminate|].
        intros (h1 & body' & Hh & Hb & _); inversion Hh; subst; congruence.
    + split; [discriminate|]. intros (h1 & _ & Hh & _); discriminate Hh.
  - intros h0 Hh Hp; rewrite Hh, Hp; reflexivity.
  - intros Hh; rewrite Hh; reflexivity.
Qed.

(** ** C10 *)

(** C10: the result of every public operation is determined by its
    arguments and the text [makeRequest] yields for it: the base address,
    the verbosity flag, the options left on the curl handle by earlier
    calls, the calls made before and the transport itself do not matter
    once that text (or the exception raised while building the request)
    is the same. *)
Theorem run_op_determined_by_response perform1 perform2 parse c w1 w2 :
  response_of perform1 c w1 = response_of perform2 c w2 ->
  fst (run_op perform1 parse c w1) = fst (run_op perform2 parse c w2).
Proof.
  intros Hr.
  destruct c; unfold run_op, fmap, response_of in *;
    cbv beta iota zeta delta [request_of] in Hr;
    [ unfold createStructure | unfold addNode | unfold removeNode | unfold updateNode
    | unfold getStructure | unfold getAllStructures | unfold getMatrix
    | unfold deleteStructure | unfold isConnected ];
    cbv zeta; through_response; rewrite Hr; reflexivity.
Qed.

Definition world_b : world :=
  mkWorld (setVerbose true (new_client "http://10.0.0.2:8080" true))
          ["[VisualizerClient] CURL request failed: "]
          [CRemoveNode "list1" 3].

Lemma run_op_determined_by_response_witness :
  response_of (respond "{}") (CRemoveNode "list1" 7) world0 =
  response_of (respond "{}") (CRemoveNode "list1" 7) world_b /\
  fst (run_op (respond "{}") json_parse_text (CRemoveNode "list1" 7) world0) =
  fst (run_op (respond "{}") json_parse_text (CRemoveNode "list1" 7) world_b).
Proof.
  split; [reflexivity|].
  apply run_op_determined_by_response; reflexivity.
Defined.

(** ** C7 *)

(** C7: [getStructure] never raises; it returns the decoded response when
    the response text decodes, and [json{}] (null) when it does not, in
    particular for the empty text of a transport failure or of a missing
    curl handle. *)
Theorem getStructure_decoded_or_null perform parse name w :
  fst (getStructure perform parse name w) =
  Ok (let text := match curl_ (cl w) with
                  | None => ""
                  | Some h0 =>
                      match perform (get_request h0 (base_url_ (cl w) ++
                                                     "/api/live/structure/" ++ name)) with
                      | Some body => body
                      | None => ""
                      end
                  end in
      match parse text with Some j => j | None => JNull end).
Proof.
  unfold getStructure; cbv zeta; through_response; rewrite makeRequest_get.
  unfold try_catch, json_parse.
  destruct (parse _); reflexivity.
Qed.

(** ** C8 and C9 *)

Lemma str_contains_app_l p a s :
  str_contains p s = true -> str_contains p (a ++ s) = true.
Proof.
  induction a as [|c a IH]; simpl; auto.
  intros H; rewrite (IH H); apply orb_true_r.
Qed.

Lemma is_prefix_app p b : is_prefix p (p ++ b) = true.
Proof.
  induction p as [|c p IH]; simpl; auto.
  rewrite Ascii.eqb_refl, IH; reflexivity.
Qed.

Lemma str_contains_middle p a b : str_contains p (a ++ p ++ b) = true.
Proof.
  apply str_contains_app_l.
  destruct p as [|c p]; simpl; [destruct b; reflexivity|].
  rewrite Ascii.eqb_refl, is_prefix_app; reflexivity.
Qed.

Lemma string_app_assoc (a b c : string) : (a ++ b) ++ c = a ++ b ++ c.
Proof. induction a as [|x a IH]; simpl; congruence. Qed.

(** the body [addNode] builds: the keys in the order of [std::map] *)
Lemma addNode_data_eq value index metadata :
  addNode_data value index metadata =
  JObj (if index >=? 0
        then [("index", JInt index); ("metadata", JObj metadata); ("value", value)]
        else [("metadata", JObj metadata); ("value", value)]).
Proof. unfold addNode_data; destruct (index >=? 0); reflexivity. Qed.

Lemma updateNode_data_eq value metadata :
  updateNode_data value metadata = JObj [("metadata", JObj metadata); ("value", value)].
Proof. reflexivity. Qed.

(** C8: with no metadata entries, the bodies of [addNode] and [updateNode]
    bind "metadata" to the empty object, and their serialisation (the text
    posted) contains ["metadata":{}]. *)
Theorem empty_metadata_sent_as_empty_object value index :
  json_contains (addNode_data value index []) "metadata" = true /\
  json_at (addNode_data value index []) "metadata" = JObj [] /\
  json_contains (updateNode_data value []) "metadata" = true /\
  json_at (updateNode_data value []) "metadata" = JObj [] /\
  match dump (addNode_data value index []) with
  | Some s => str_contains (quoted "metadata" ++ ":{}") s = true
  | None => True
  end /\
  match dump (updateNode_data value []) with
  | Some s => str_contains (quoted "metadata" ++ ":{}") s = true
  | None => True
  end.
Proof.
  rewrite addNode_data_eq, updateNode_data_eq.
  destruct (index >=? 0); repeat split; simpl dump;
    destruct (dump value) as [sv|]; simpl; auto.
  rewrite string_app_assoc.
  apply str_contains_app_l, (str_contains_app_l _ (str1 ",")).
  exact (str_contains_middle (quoted "metadata" ++ ":{}") "" _).
Qed.

(** C9: the body of [addNode] has the key "index" exactly when the caller
    supplied an index ([index >= 0]), bound to that index; "value" and
    "metadata" are always present, bound to the arguments. *)
Theorem addNode_index_iff_supplied value index metadata :
  addNode_data value index metadata =
    JObj ((if index >=? 0 then [("index", JInt index)] else []) ++
          [("metadata", JObj metadata); ("value", value)])%list /\
  json_contains (addNode_data value index metadata) "index" = (index >=? 0) /\
  json_at (addNode_data value index metadata) "index" =
    (if index >=? 0 then JInt index else JNull) /\
  json_contains (addNode_data value index metadata) "value" = true /\
  json_at (addNode_data value index metadata) "value" = value /\
  json_contains (addNode_data value index metadata) "metadata" = true /\
  json_at (addNode_data value index metadata) "metadata" = JObj metadata.
Proof.
  rewrite addNode_data_eq; destruct (index >=? 0); repeat split.
Qed.

(** ** C3 *)

(** the test and the access of [addNode] on the decoded response *)
Definition node_id_field (result : json) : option json :=
  if json_contains result "node" && json_contains (json_at result "node") "id"
  then Some (json_at (json_at result "node") "id")
  else None.

Lemma addNode_fst perform parse name value index metadata w r :
  response_of perform (CAddNode name value index metadata) w = Ok r ->
  fst (addNode perform parse name value index metadata w) =
  Ok (match parse r with
      | None => -1
      | Some result =>
          match node_id_field result with
          | Some (JInt z) => wrap32 z
          | Some (JBool b) => if b then 1 else 0
          | _ => -1
          end
      end).
Proof.
  intros Hr; unfold response_of in Hr; cbv beta iota zeta delta [request_of] in Hr.
  unfold addNode; cbv zeta; through_response; rewrite Hr.
  unfold try_catch, bind, json_parse, node_id_field.
  destruct (parse r) as [result|]; [|reflexivity].
  cbn [ret].
  destruct (json_contains result "node" && json_contains (json_at result "node") "id");
    [|reflexivity].
  destruct (json_at (json_at result "node") "id"); reflexivity.
Qed.

Lemma wrap32_small z : - 2 ^ 31 <= z < 2 ^ 31 -> wrap32 z = z.
Proof.
  intros Hz; unfold wrap32.
  destruct (Z_le_gt_dec 0 z) as [Hpos|Hneg].
  - rewrite Z.mod_small by lia.
    replace (z <? 2 ^ 31) with true by (symmetry; apply Z.ltb_lt; lia); reflexivity.
  - replace (z mod 2 ^ 32) with (z + 2 ^ 32).
    + replace (z + 2 ^ 32 <? 2 ^ 31) with false by (symmetry; apply Z.ltb_ge; lia); lia.
    + apply Z.mod_unique with (-1); lia.
Qed.

(** C3 (counterexample): the decoded response {"node":{"id":2147483648}}
    stores the identifier 2147483648, and [addNode] returns -2147483648. *)
Lemma addNode_id_beyond_int :
  let r := "{" ++ quoted "node" ++ ":{" ++ quoted "id" ++ ":2147483648}}" in
  json_parse_text r = Some (JObj [("node", JObj [("id", JInt 2147483648)])]) /\
  fst (addNode (respond r) json_parse_text "list1" (JInt 42) (-1) [] world0)
    = Ok (-2147483648).
Proof. split; reflexivity. Qed.

(** C3 (amended): when the response text fails to decode, or its decoded
    value lacks the nested field node.id, [addNode] returns -1; when node.id
    holds an integer [z], it returns [z] converted to a 32-bit [int]
    ([wrap32 z]), which is exactly [z] whenever -2^31 <= z < 2^31. *)
Theorem addNode_returns_node_id perform parse name value index metadata w r :
  response_of perform (CAddNode name value index metadata) w = Ok r ->
  (parse r = None ->
   fst (addNode perform parse name value index metadata w) = Ok (-1)) /\
  (forall result, parse r = Some result -> node_id_field result = None ->
   fst (addNode perform parse name value index metadata w) = Ok (-1)) /\
  (forall result z, parse r = Some result -> node_id_field result = Some (JInt z) ->
   fst (addNode perform parse name value index metadata w) = Ok (wrap32 z)) /\
  (forall result z, parse r = Some result -> node_id_field result = Some (JInt z) ->
   - 2 ^ 31 <= z < 2 ^ 31 ->
   fst (addNode perform parse name value index metadata w) = Ok z).
Proof.
  intros Hr; rewrite (addNode_fst _ _ _ _ _ _ _ _ Hr).
  repeat split.
  - intros Hp; rewrite Hp; reflexivity.
  - intros result Hp Hn; rewrite Hp, Hn; reflexivity.
  - intros result z Hp Hn; rewrite Hp, Hn; reflexivity.
  - intros result z Hp Hn Hz; rewrite Hp, Hn, wrap32_small by exact Hz; reflexivity.
Qed.

Definition node7_text : string := "{" ++ quoted "node" ++ ":{" ++ quoted "id" ++ ":7}}".

Lemma addNode_returns_node_id_witness :
  response_of (respond node7_text) (CAddNode "list1" (JInt 42) (-1) []) world0
    = Ok node7_text /\
  fst (addNode (respond node7_text) json_parse_text "list1" (JInt 42) (-1) [] world0)
    = Ok 7.
Proof.
  split; [reflexivity|].
  apply (proj2 (proj2 (proj2
           (addNode_returns_node_id (respond node7_text) json_parse_text "list1"
              (JInt 42) (-1) [] world0 node7_text eq_refl))))
    with (result := JObj [("node", JObj [("id", JInt 7)])]);
    [reflexivity | reflexivity | lia].
Defined.

(** ** C2 *)

Lemma createStructure_fst perform name type depth initial_size w r :
  response_of perform (CCreateStructure name type depth initial_size) w = Ok r ->
  fst (createStructure perform name type depth initial_size w) =
  Ok (negb (str_empty r) && str_contains (quoted "id") r).
Proof.
  intros Hr; unfold response_of in Hr; cbv beta iota zeta delta [request_of] in Hr.
  unfold createStructure; cbv zeta; through_response; rewrite Hr; reflexivity.
Qed.

(** C2 (counterexample): the decodable error response
    {"error":"invalid","field":"id"} has no identifier field, yet
    [createStructure] returns true; the response {"\u0069d":5}, which
    decodes to an object with the identifier field "id", yields false. *)
Lemma createStructure_id_substring_not_field :
  let bad := JObj [("error", JStr "invalid"); ("field", JStr "id")] in
  let escaped := "{" ++ quoted "\u0069d" ++ ":5}" in
  match dump bad with
  | Some r =>
      json_parse_text r = Some bad /\ json_contains bad "id" = false /\
      fst (createStructure (respond r) "list1" "linked_list" 1 0 world0) = Ok true
  | None => False
  end /\
  json_parse_text escaped = Some (JObj [("id", JInt 5)]) /\
  fst (createStructure (respond escaped) "list1" "linked_list" 1 0 world0) = Ok false.
Proof. repeat split; reflexivity. Qed.

(** C2 (amended): for every response text [r] that [makeRequest] yields,
    [createStructure] returns true if and only if [r] contains the
    substring ["id"] (the quoted word id, anywhere in the text, whether or
    not it is a key of the decoded object); it returns false otherwise, in
    particular for the empty text of a transport failure. *)
Theorem createStructure_true_iff_quoted_id perform name type depth initial_size w r :
  response_of perform (CCreateStructure name type depth initial_size) w = Ok r ->
  (fst (createStructure perform name type depth initial_size w) = Ok true <->
   str_contains (quoted "id") r = true) /\
  (fst (createStructure perform name type depth initial_size w) = Ok false <->
   str_contains (quoted "id") r = false) /\
  (r = "" -> fst (createStructure perform name type depth initial_size w) = Ok false).
Proof.
  intros Hr; rewrite (createStructure_fst _ _ _ _ _ _ _ Hr).
  destruct r as [|a r']; cbn [str_empty negb andb].
  - repeat split; intros H; try reflexivity; discriminate H.
  - destruct (str_contains (quoted "id") (String a r')); repeat split;
      intros H; try reflexivity; try discriminate H.
Qed.

Lemma createStructure_true_iff_quoted_id_witness :
  response_of transport_down (CCreateStructure "list1" "linked_list" 1 0) world0 = Ok "" /\
  fst (createStructure transport_down "list1" "linked_list" 1 0 world0) = Ok false.
Proof.
  split; [reflexivity|].
  apply (createStructure_true_iff_quoted_id transport_down "list1" "linked_list" 1 0
           world0 "" eq_refl); reflexivity.
Defined.

(** ** Exceptions: only the encoding of a request body raises *)

Lemma try_catch_ok {A} (m : M A) (h : exn -> M A) w :
  (forall e w', exists a, fst (h e w') = Ok a) ->
  exists a, fst (try_catch m h w) = Ok a.
Proof.
  intros Hh; unfold try_catch.
  destruct (m w) as [[a|e] w']; simpl; eauto.
Qed.

Lemma run_op_exc perform parse c w e :
  fst (run_op perform parse c w) = Exc e ->
  let '(method, _, data) := request_of c in
  body_method method = true /\ dump data = None /\ e = type_error 316.
Proof.
  intros H.
  destruct c; unfold run_op, fmap in H;
    [ unfold createStructure in H | unfold addNode in H | unfold removeNode in H
    | unfold updateNode in H | unfold getStructure in H | unfold getAllStructures in H
    | unfold getMatrix in H | unfold deleteStructure in H | unfold isConnected in H ];
    cbv zeta in H; repeat (rewrite fst_bind_stateless in H by solve_stateless);
    cbv beta iota zeta delta [request_of];
    match type of H with
    | context [fst (makeRequest ?p ?m ?ep ?d ?w0)] =>
        destruct (fst (makeRequest p m ep d w0)) as [resp|e'] eqn:E;
        [ | inversion H; subst; exact (makeRequest_exc _ _ _ _ _ _ E) ]
    end;
    try (match type of H with
         | context [fst (try_catch ?m ?h ?w0)] =>
             destruct (try_catch_ok m h w0) as [a Ha];
             [ intros e1 w1; eexists; reflexivity | rewrite Ha in H ]
         end);
    simpl in H; discriminate H.
Qed.

(** ** C5 *)

(** C5 (code bug): every failure of a public call is caught and encoded in
    its return value (transport failures, missing handle, undecodable
    responses), but the [json::dump] of a request body is outside every
    [try]: a structure name that is not well-formed UTF-8 (the single byte
    0xFF) makes [createStructure] raise [type_error.316], and a node value
    holding that byte does the same for [addNode], while [getStructure] and
    [deleteStructure] given the same name return normally. *)
Lemma public_operation_raises_on_invalid_utf8 :
  fst (createStructure (respond "{}") (str1 (chr 255)) "linked_list" 1 0 world0)
    = Exc (type_error 316) /\
  fst (addNode (respond "{}") json_parse_text "list1" (JStr (str1 (chr 255))) (-1) [] world0)
    = Exc (type_error 316) /\
  fst (getStructure (respond "{}") json_parse_text (str1 (chr 255)) world0) = Ok (JObj []) /\
  fst (deleteStructure (respond "{}") (str1 (chr 255)) world0) = Ok true.
Proof. split; [|split; [|split]]; vm_compute; reflexivity. Qed.

(** ** C4 *)

(** The operations of the client leave the ghost record of calls alone. *)
Definition keeps_calls {A} (m : M A) : Prop := forall w, calls (snd (m w)) = calls w.

Lemma keeps_calls_bind {A B} (m : M A) (k : A -> M B) :
  keeps_calls m -> (forall a, keeps_calls (k a)) -> keeps_calls (bind m k).
Proof.
  intros Hm Hk w; unfold bind.
  specialize (Hm w); destruct (m w) as [[a|e] w']; simpl in *; [rewrite Hk|]; auto.
Qed.

Lemma keeps_calls_try_catch {A} (m : M A) (h : exn -> M A) :
  keeps_calls m -> (forall e, keeps_calls (h e)) -> keeps_calls (try_catch m h).
Proof.
  intros Hm Hh w; unfold try_catch.
  specialize (Hm w); destruct (m w) as [[a|e] w']; simpl in *; [|rewrite Hh]; auto.
Qed.

Lemma keeps_calls_ret {A} (a : A) : keeps_calls (ret a).
Proof. intros w; reflexivity. Qed.

Lemma keeps_calls_throw {A} e : keeps_calls (@throw A e).
Proof. intros w; reflexivity. Qed.

Lemma keeps_calls_logError msg : keeps_calls (logError msg).
Proof. intros w; unfold logError; destruct (verbose_ (cl w)); reflexivity. Qed.

Lemma keeps_calls_set_curl h : keeps_calls (set_curl h).
Proof. intros w; reflexivity. Qed.

Lemma keeps_calls_get_client : keeps_calls get_client.
Proof. intros w; reflexivity. Qed.

Lemma keeps_calls_json_parse parse s : keeps_calls (json_parse parse s).
Proof. unfold json_parse; destruct (parse s); intros w; reflexivity. Qed.

Lemma keeps_calls_json_to_int j : keeps_calls (json_to_int j).
Proof. unfold json_to_int; destruct j; intros w; reflexivity. Qed.

Create HintDb calls_db.
#[export] Hint Resolve keeps_calls_ret keeps_calls_throw keeps_calls_logError
  keeps_calls_set_curl keeps_calls_get_client keeps_calls_json_parse
  keeps_calls_json_to_int : calls_db.

Ltac solve_keeps_calls :=
  repeat (intros; cbv zeta;
          first [ solve [eauto with calls_db]
                | apply keeps_calls_bind
                | apply keeps_calls_try_catch
                | match goal with
                  | |- keeps_calls (if ?b then _ else _) => destruct b
                  | |- keeps_calls (match ?x with _ => _ end) => destruct x
                  end ]).

Lemma keeps_calls_makeRequest perform method endpoint data :
  keeps_calls (makeRequest perform method endpoint data).
Proof. unfold makeRequest; solve_keeps_calls. Qed.

#[export] Hint Resolve keeps_calls_makeRequest : calls_db.

Lemma keeps_calls_run_op perform parse c : keeps_calls (run_op perform parse c).
Proof.
  destruct c; unfold run_op, fmap, createStructure, addNode, removeNode, updateNode,
    getStructure, getAllStructures, getMatrix, deleteStructure, isConnected;
    solve_keeps_calls.
Qed.

Lemma dispatch_calls perform parse c w :
  calls (snd (dispatch perform parse c w)) = (calls w ++ [c])%list.
Proof.
  unfold dispatch, bind, record_call; simpl.
  apply keeps_calls_run_op.
Qed.

Lemma dispatch_delete_ok perform parse name w :
  exists v, fst (dispatch perform parse (CDeleteStructure name) w) = Ok v.
Proof.
  unfold dispatch, bind, record_call; cbv beta iota.
  match goal with
  | |- context [fst (run_op ?p ?q ?c ?w')] => destruct (fst (run_op p q c w')) as [v|e] eqn:Hr
  end; eauto.
  apply run_op_exc in Hr; simpl in Hr; destruct Hr as [Hb _]; discriminate Hb.
Qed.

Definition is_delete_of (name : string) (c : api_call) : bool :=
  match c with CDeleteStructure n => String.eqb n name | _ => false end.

(** the number of [deleteStructure(name)] calls in a record of calls *)
Definition count_deletes (name : string) (l : list api_call) : nat :=
  List.length (filter (is_delete_of name) l).

(** a scope that uses the structure only through its delegate methods *)
Definition managed_only (body : list scope_step) : bool :=
  forallb (fun s => match s with SClient _ => false | _ => true end) body.

Lemma count_deletes_snoc name l c :
  count_deletes name (l ++ [c])%list =
  (count_deletes name l + if is_delete_of name c then 1 else 0)%nat.
Proof.
  unfold count_deletes; rewrite filter_app, length_app; simpl.
  destruct (is_delete_of name c); reflexivity.
Qed.

Lemma run_scope_count perform parse name body w :
  managed_only body = true ->
  count_deletes name (calls (snd (run_scope perform parse name body w))) =
  count_deletes name (calls w).
Proof.
  revert w; induction body as [|s body IH]; intros w Hm; [reflexivity|].
  simpl in Hm; destruct s as [op|c|e|]; try discriminate Hm; simpl; try reflexivity.
  unfold bind.
  pose proof (dispatch_calls perform parse (forward name op) w) as Hc.
  destruct (dispatch perform parse (forward name op) w) as [[v|e] w'];
    simpl in Hc |- *; [rewrite IH by exact Hm|];
    rewrite Hc, count_deletes_snoc; destruct op; simpl; lia.
Qed.

(** C4: once the constructor of a ManagedStructure has completed (whether
    [createStructure] answered true or false), leaving the scope, by its
    end, a return or an exception, runs the destructor, which records
    exactly one more call, [deleteStructure(name)], after the calls of the
    body; the outcome of the scope is the body's. When the body uses the
    structure only through its delegate methods, the scope makes exactly
    one [deleteStructure(name)] call in all. *)
Theorem managed_block_deletes_once perform parse name type depth body w v :
  fst (ManagedStructure_ctor perform parse name type depth w) = Ok v ->
  let w1 := snd (ManagedStructure_ctor perform parse name type depth w) in
  let w2 := snd (run_scope perform parse name body w1) in
  calls (snd (managed_block perform parse name type depth body w)) =
    (calls w2 ++ [CDeleteStructure name])%list /\
  fst (managed_block perform parse name type depth body w) =
    fst (run_scope perform parse name body w1) /\
  (managed_only body = true ->
   count_deletes name (calls (snd (managed_block perform parse name type depth body w))) =
   S (count_deletes name (calls w))).
Proof.
  intros Hv w1 w2.
  pose proof (dispatch_calls perform parse (CCreateStructure name type depth 0) w) as Hc1.
  change (dispatch perform parse (CCreateStructure name type depth 0) w)
    with (ManagedStructure_ctor perform parse name type depth w) in Hc1.
  unfold managed_block; fold (ManagedStructure_ctor perform parse name type depth w) in *.
  unfold w2, w1 in *; clear w1 w2.
  destruct (ManagedStructure_ctor perform parse name type depth w) as [[v'|e] w1] eqn:Hctor;
    simpl in Hv |- *; [|discriminate Hv].
  destruct (run_scope perform parse name body w1) as [r w2] eqn:Hs; simpl.
  destruct (dispatch_delete_ok perform parse name w2) as [u Hu].
  pose proof (dispatch_calls perform parse (CDeleteStructure name) w2) as Hc3.
  unfold ManagedStructure_dtor.
  destruct (dispatch perform parse (CDeleteStructure name) w2) as [[u'|e] w3];
    simpl in Hu, Hc3 |- *; [|discriminate Hu].
  split; [exact Hc3 | split; [reflexivity|]].
  intros Hm.
  rewrite Hc3, count_deletes_snoc; simpl; rewrite String.eqb_refl.
  pose proof (run_scope_count perform parse name body w1 Hm) as Hcount.
  rewrite Hs in Hcount; simpl in Hcount; rewrite Hcount.
  simpl in Hc1; rewrite Hc1, count_deletes_snoc; simpl; lia.
Qed.

Definition scope_body : list scope_step :=
  [SManaged (MAddNode (JInt 42) (-1) []); SRaise (user_exception 0); SManaged MGetStructure].

Lemma managed_block_deletes_once_witness :
  fst (ManagedStructure_ctor transport_down json_parse_text "list1" "linked_list" 1 world0)
    = Ok (RBool false) /\
  managed_only scope_body = true /\
  count_deletes "list1"
    (calls (snd (managed_block transport_down json_parse_text "list1" "linked_list" 1
                   scope_body world0))) = 1%nat.
Proof.
  split; [reflexivity | split; [reflexivity|]].
  exact (proj2 (proj2 (managed_block_deletes_once transport_down json_parse_text "list1"
                         "linked_list" 1 scope_body world0 (RBool false) eq_refl)) eq_refl).
Defined.

(** ** The end-to-end scenario of the specification, on a simulated server *)

Definition list1_server (h : curl_handle) : option string :=
  match rev h with
  | _ :: OPT_POST 1 :: OPT_POSTFIELDS _ :: OPT_WRITEDATA :: OPT_URL url :: _ =>
      if String.eqb url "http://localhost:5000/api/live/structure"
      then Some ("{" ++ quoted "id" ++ ":1," ++ quoted "name" ++ ":" ++ quoted "list1" ++ "}")
      else Some node7_text
  | _ => Some ("{" ++ quoted "success" ++ ":true}")
  end.

Example end_to_end_list1 :
  let run c := fst (dispatch list1_server json_parse_text c world0) in
  run (CCreateStructure "list1" "linked_list" 1 0) = Ok (RBool true) /\
  run (CAddNode "list1" (JInt 42) (-1) []) = Ok (RInt 7) /\
  run (CUpdateNode "list1" 7 (JInt 99) [("color", JStr "red")]) = Ok (RBool true) /\
  run (CRemoveNode "list1" 7) = Ok (RBool true) /\
  run (CDeleteStructure "list1") = Ok (RBool true).
Proof. repeat split; reflexivity. Qed.

(** * Further properties of the client *)

(** ** Reading the listing and the matrix *)

(** X1. [getAllStructures] never raises: it returns the elements of the decoded
    response when that is an array, and the empty vector for any other
    decoded value, for an undecodable text and for the empty text of a
    failed or impossible request. *)
Theorem getAllStructures_elements_or_empty perform parse w :
  fst (getAllStructures perform parse w) =
  Ok (let text := match curl_ (cl w) with
                  | None => ""
                  | Some h0 =>
                      match perform (get_request h0 (base_url_ (cl w) ++ "/api/live/structures")) with
                      | Some body => body
                      | None => ""
                      end
                  end in
      match parse text with Some (JArr l) => l | _ => [] end).
Proof.
  unfold getAllStructures; through_response; rewrite makeRequest_get.
  unfold try_catch, bind, json_parse.
  destruct (parse _) as [[]|]; reflexivity.
Qed.

(** X2. [getMatrix] never raises: it returns the decoded response, or null when
    the response text does not decode. *)
Theorem getMatrix_decoded_or_null perform parse w :
  fst (getMatrix perform parse w) =
  Ok (let text := match curl_ (cl w) with
                  | None => ""
                  | Some h0 =>
                      match perform (get_request h0 (base_url_ (cl w) ++ "/api/live/matrix")) with
                      | Some body => body
                      | None => ""
                      end
                  end in
      match parse text with Some j => j | None => JNull end).
Proof.
  unfold getMatrix; through_response; rewrite makeRequest_get.
  unfold try_catch, json_parse.
  destruct (parse _); reflexivity.
Qed.

(** ** Endpoints *)

(** X3. The structure name is pasted into the path unescaped: deleting the
    structure named [n ++ "/node/" ++ id] is the very same exchange, with
    the same result and the same effect on the client, as removing node
    [id] of structure [n]. *)
Theorem deleteStructure_path_is_removeNode perform name node_id w :
  deleteStructure perform (name ++ "/node/" ++ Z_to_string node_id) w =
  removeNode perform name node_id w.
Proof.
  reflexivity.
Qed.

(** ** Node identifiers that are not integers *)

(** X4. When node.id is present but is a string, an array, an object or null,
    the conversion to [int] throws [type_error.302], which [addNode]
    catches: it returns -1. A boolean node.id converts to 1 or 0. *)
Theorem addNode_non_integer_id perform parse name value index metadata w r result id :
  response_of perform (CAddNode name value index metadata) w = Ok r ->
  parse r = Some result ->
  node_id_field result = Some id ->
  fst (addNode perform parse name value index metadata w) =
  Ok (match id with
      | JInt z => wrap32 z
      | JBool b => if b then 1 else 0
      | JNull | JStr _ | JArr _ | JObj _ => -1
      end).
Proof.
  intros Hr Hp Hn; rewrite (addNode_fst _ _ _ _ _ _ _ _ Hr), Hp, Hn.
  destruct id; reflexivity.
Qed.

Definition string_id_text : string :=
  "{" ++ quoted "node" ++ ":{" ++ quoted "id" ++ ":" ++ quoted "7" ++ "}}".

Lemma addNode_non_integer_id_witness :
  response_of (respond string_id_text) (CAddNode "list1" (JInt 42) (-1) []) world0
    = Ok string_id_text /\
  json_parse_text string_id_text = Some (JObj [("node", JObj [("id", JStr "7")])]) /\
  fst (addNode (respond string_id_text) json_parse_text "list1" (JInt 42) (-1) [] world0)
    = Ok (-1).
Proof.
  split; [reflexivity | split; [reflexivity|]].
  exact (addNode_non_integer_id (respond string_id_text) json_parse_text "list1" (JInt 42)
           (-1) [] world0 string_id_text (JObj [("node", JObj [("id", JStr "7")])])
           (JStr "7") eq_refl eq_refl eq_refl).
Defined.

(** ** The body of [createStructure] *)

(** X5. The body is serialised with its keys in [std::map] order as
    {"depth":..,"initialSize":..,"name":"..","type":".."}; it cannot be
    serialised exactly when the name or the type is not well-formed
    UTF-8. *)
Theorem createStructure_body_text name type depth initial_size :
  dump (let '(_, _, data) := request_of (CCreateStructure name type depth initial_size) in data) =
  match dump_escaped name, dump_escaped type with
  | Some en, Some et =>
      Some ("{" ++ quoted "depth" ++ ":" ++ Z_to_string depth ++ "," ++
            quoted "initialSize" ++ ":" ++ Z_to_string initial_size ++ "," ++
            quoted "name" ++ ":" ++ quoted en ++ "," ++
            quoted "type" ++ ":" ++ quoted et ++ "}")
  | _, _ => None
  end.
Proof.
  cbn [request_of json_object fold_left fst snd].
  cbv [map_emplace String.compare]. simpl.
  unfold dump_string.
  destruct (dump_escaped name), (dump_escaped type); try reflexivity.
  unfold quoted; repeat (first [rewrite string_app_assoc | progress cbn]); reflexivity.
Qed.

(** ** What the operations keep *)

Definition is_timeout_opt (o : curl_opt) : bool :=
  match o with OPT_TIMEOUT _ | OPT_CONNECTTIMEOUT _ => true | _ => false end.

(** the handle is only extended, never by a timeout option, and it exists
    afterwards exactly when it existed before *)
Definition handle_ext (h h' : option curl_handle) : Prop :=
  match h, h' with
  | None, None => True
  | Some h0, Some h1 =>
      exists ext, h1 = (h0 ++ ext)%list /\ forallb (fun o => negb (is_timeout_opt o)) ext = true
  | _, _ => False
  end.

Lemma handle_ext_refl h : handle_ext h h.
Proof. destruct h as [h0|]; simpl; [exists []; rewrite app_nil_r|]; auto. Qed.

Lemma handle_ext_trans h1 h2 h3 : handle_ext h1 h2 -> handle_ext h2 h3 -> handle_ext h1 h3.
Proof.
  destruct h1 as [a|], h2 as [b|], h3 as [c|]; simpl; try tauto.
  intros (e1 & -> & He1) (e2 & -> & He2).
  exists (e1 ++ e2)%list; rewrite app_assoc, forallb_app, He1, He2; auto.
Qed.

(** An action keeps the base address and the verbosity flag, only extends
    the handle, and writes nothing to [std::cerr] when not verbose. *)
Definition well_behaved {A} (m : M A) : Prop :=
  forall w,
    base_url_ (cl (snd (m w))) = base_url_ (cl w) /\
    verbose_ (cl (snd (m w))) = verbose_ (cl w) /\
    handle_ext (curl_ (cl w)) (curl_ (cl (snd (m w)))) /\
    (verbose_ (cl w) = false -> err_out (snd (m w)) = err_out w).

Lemma well_behaved_unchanged {A} (m : M A) :
  (forall w, cl (snd (m w)) = cl w /\ err_out (snd (m w)) = err_out w) -> well_behaved m.
Proof.
  intros H w; destruct (H w) as [-> ->]; repeat split; auto using handle_ext_refl.
Qed.

Lemma well_behaved_ret {A} (a : A) : well_behaved (ret a).
Proof. apply well_behaved_unchanged; auto. Qed.

Lemma well_behaved_throw {A} e : well_behaved (@throw A e).
Proof. apply well_behaved_unchanged; auto. Qed.

Lemma well_behaved_json_parse parse s : well_behaved (json_parse parse s).
Proof. unfold json_parse; destruct (parse s); apply well_behaved_unchanged; auto. Qed.

Lemma well_behaved_json_to_int j : well_behaved (json_to_int j).
Proof. unfold json_to_int; destruct j; apply well_behaved_unchanged; auto. Qed.

Lemma well_behaved_record_call c : well_behaved (record_call c).
Proof. apply well_behaved_unchanged; auto. Qed.

Lemma well_behaved_logError msg : well_behaved (logError msg).
Proof.
  intros w; unfold logError; simpl.
  destruct (verbose_ (cl w)) eqn:Hv; simpl; repeat split; auto using handle_ext_refl;
    intros H; discriminate H.
Qed.

Lemma well_behaved_bind {A B} (m : M A) (k : A -> M B) :
  well_behaved m -> (forall a, well_behaved (k a)) -> well_behaved (bind m k).
Proof.
  intros Hm Hk w; unfold bind.
  destruct (Hm w) as (Hb & Hv & Hh & He).
  destruct (m w) as [[a|e] w']; simpl in *; [|repeat split; auto].
  destruct (Hk a w') as (Hb' & Hv' & Hh' & He').
  repeat split; [congruence | congruence | eapply handle_ext_trans; eauto |].
  intros Hq; rewrite He', He; congruence.
Qed.

Lemma well_behaved_try_catch {A} (m : M A) (h : exn -> M A) :
  well_behaved m -> (forall e, well_behaved (h e)) -> well_behaved (try_catch m h).
Proof.
  intros Hm Hh w; unfold try_catch.
  destruct (Hm w) as (Hb & Hv & Hx & He).
  destruct (m w) as [[a|e] w']; simpl in *; [repeat split; auto|].
  destruct (Hh e w') as (Hb' & Hv' & Hx' & He').
  repeat split; [congruence | congruence | eapply handle_ext_trans; eauto |].
  intros Hq; rewrite He', He; congruence.
Qed.

Lemma well_behaved_makeRequest perform method endpoint data :
  well_behaved (makeRequest perform method endpoint data).
Proof.
  intros w; unfold makeRequest, bind, get_client; simpl.
  destruct (curl_ (cl w)) as [h0|] eqn:Hc.
  - assert (Hx : forall ext, forallb (fun o => negb (is_timeout_opt o)) ext = true ->
                 handle_ext (Some h0) (Some (h0 ++ ext)%list))
      by (intros ext Hext; exists ext; auto).
    destruct (String.eqb method "POST" || String.eqb method "PUT").
    + destruct (dump data) as [js|]; simpl.
      * destruct (perform _); simpl; [|destruct (verbose_ (cl w)) eqn:Hv]; simpl;
          (repeat split; auto; [rewrite <- !app_assoc; apply Hx;
                                destruct (String.eqb method "POST"); reflexivity | ..]);
          intros H; discriminate H.
      * repeat split; auto. apply Hx; reflexivity.
    + destruct (String.eqb method "DELETE"); simpl;
        destruct (perform _); simpl; try destruct (verbose_ (cl w)) eqn:Hv; simpl;
        (repeat split; auto; [rewrite <- !app_assoc; apply Hx; reflexivity | ..]);
        intros H; discriminate H.
  - destruct (verbose_ (cl w)) eqn:Hv; simpl; repeat split; auto; try rewrite Hc; simpl; auto;
      intros H; discriminate H.
Qed.

Create HintDb wb_db.
#[export] Hint Resolve well_behaved_ret well_behaved_throw well_behaved_json_parse
  well_behaved_json_to_int well_behaved_record_call well_behaved_logError
  well_behaved_makeRequest : wb_db.

Ltac solve_well_behaved :=
  repeat (intros; cbv zeta;
          first [ solve [eauto with wb_db]
                | apply well_behaved_bind
                | apply well_behaved_try_catch
                | match goal with
                  | |- well_behaved (if ?b then _ else _) => destruct b
                  | |- well_behaved (match ?x with _ => _ end) => destruct x
                  end ]).

Lemma well_behaved_run_op perform parse c : well_behaved (run_op perform parse c).
Proof.
  destruct c; unfold run_op, fmap, createStructure, addNode, removeNode, updateNode,
    getStructure, getAllStructures, getMatrix, deleteStructure, isConnected;
    solve_well_behaved.
Qed.

Lemma well_behaved_dispatch perform parse c : well_behaved (dispatch perform parse c).
Proof.
  unfold dispatch; apply well_behaved_bind;
    [apply well_behaved_record_call | intros; apply well_behaved_run_op].
Qed.

(** an application making public calls one after the other; it may catch
    what a call raises and go on, which is what [run_calls] does (a caller
    that does not catch ends in the state [run_calls] reaches after the same
    calls, up to the raising one) *)
Fixpoint run_calls (perform : curl_handle -> option string) (parse : string -> option json)
    (cs : list api_call) : M unit :=
  match cs with
  | [] => ret tt
  | c :: cs' =>
      try_catch (dispatch perform parse c ;;; ret tt) (fun _ => ret tt) ;;;
      run_calls perform parse cs'
  end.

Lemma well_behaved_run_calls perform parse cs : well_behaved (run_calls perform parse cs).
Proof.
  induction cs as [|c cs IH]; simpl; [apply well_behaved_ret|].
  apply well_behaved_bind; auto.
  apply well_behaved_try_catch; intros; [|apply well_behaved_ret].
  apply well_behaved_bind; intros; [apply well_behaved_dispatch | apply well_behaved_ret].
Qed.

Lemma filter_timeouts_ext h ext :
  forallb (fun o => negb (is_timeout_opt o)) ext = true ->
  filter is_timeout_opt (h ++ ext)%list = filter is_timeout_opt h.
Proof.
  intros H; rewrite filter_app.
  replace (filter is_timeout_opt ext) with (@nil curl_opt); [apply app_nil_r|].
  induction ext as [|o ext IH]; simpl in *; auto.
  apply andb_prop in H; destruct H as [Ho H].
  destruct (is_timeout_opt o); [discriminate Ho | auto].
Qed.

(** X6. Over any sequence of public calls on a client constructed with a
    working curl handle and never made verbose, whether or not the caller
    catches what a call raises and goes on, the base address stays the
    one given, nothing is written to [std::cerr], and the handle stays the
    constructor's with options appended: it starts with the write callback,
    the 10 s timeout and the 5 s connect timeout, and these are its only
    timeout options, so every request is performed with them. *)
Theorem client_session_invariants perform parse base cs :
  let w := snd (run_calls perform parse cs (mkWorld (new_client base true) [] [])) in
  base_url_ (cl w) = base /\ verbose_ (cl w) = false /\ err_out w = [] /\
  exists h, curl_ (cl w) = Some h /\
    firstn 3 h = [OPT_WRITEFUNCTION; OPT_TIMEOUT 10; OPT_CONNECTTIMEOUT 5] /\
    filter is_timeout_opt h = [OPT_TIMEOUT 10; OPT_CONNECTTIMEOUT 5].
Proof.
  cbv zeta.
  destruct (well_behaved_run_calls perform parse cs (mkWorld (new_client base true) [] []))
    as (Hb & Hv & Hh & He).
  simpl in Hb, Hv, Hh, He.
  destruct (curl_ (cl (snd (run_calls perform parse cs _)))) as [h|]; [|contradiction].
  destruct Hh as (ext & -> & Hext).
  repeat split; auto.
  exists ([OPT_WRITEFUNCTION; OPT_TIMEOUT 10; OPT_CONNECTTIMEOUT 5] ++ ext)%list.
  split; [reflexivity|split; [reflexivity|]].
  rewrite filter_timeouts_ext by exact Hext; reflexivity.
Qed.

(** ** Options persist on the shared handle *)

(** the value of [CURLOPT_CUSTOMREQUEST] in force on a handle: the last one set *)
Fixpoint last_custom_request (h : curl_handle) : option string :=
  match h with
  | [] => None
  | o :: h' =>
      match last_custom_request h' with
      | Some v => Some v
      | None => match o with OPT_CUSTOMREQUEST v => Some v | _ => None end
      end
  end.

Lemma last_custom_request_app h ext :
  last_custom_request (h ++ ext)%list =
  match last_custom_request ext with Some v => Some v | None => last_custom_request h end.
Proof.
  induction h as [|o h IH]; simpl.
  - destruct (last_custom_request ext); reflexivity.
  - rewrite IH; destruct (last_custom_request ext); reflexivity.
Qed.

(** X7. [makeRequest] sets [CURLOPT_CUSTOMREQUEST] only for PUT and DELETE
    and never resets it: after a request with any other verb, the custom
    request method in force on the handle is the one before. *)
Theorem makeRequest_keeps_custom_request perform method endpoint data w h0 :
  curl_ (cl w) = Some h0 ->
  String.eqb method "PUT" = false -> String.eqb method "DELETE" = false ->
  exists h1, curl_ (cl (snd (makeRequest perform method endpoint data w))) = Some h1 /\
             last_custom_request h1 = last_custom_request h0.
Proof.
  intros Hc Hput Hdel.
  unfold makeRequest, bind, get_client; simpl; rewrite Hc, Hput, Hdel, orb_false_r.
  destruct (String.eqb method "POST") eqn:Hpost.
  - destruct (dump data) as [js|]; simpl.
    + eexists; split; [destruct (perform _); simpl; [|destruct (verbose_ (cl w))]; reflexivity|].
      rewrite !last_custom_request_app; reflexivity.
    + eexists; split; [reflexivity|].
      rewrite !last_custom_request_app; reflexivity.
  - simpl; eexists; split; [destruct (perform _); simpl; [|destruct (verbose_ (cl w))]; reflexivity|].
    rewrite !last_custom_request_app; reflexivity.
Qed.

(** an [updateNode] leaves "PUT" in force; the [createStructure] that
    follows is still sent with it *)
Lemma makeRequest_keeps_custom_request_witness :
  let w1 := snd (updateNode (respond "{}") "s" 1 (JInt 2) [] world0) in
  exists h1, curl_ (cl (snd (makeRequest (respond "{}") "POST" "/api/live/structure"
                                (JObj []) w1))) = Some h1 /\
             last_custom_request h1 = Some "PUT".
Proof.
  cbv zeta.
  destruct (makeRequest_keeps_custom_request (respond "{}") "POST" "/api/live/structure" (JObj [])
              (snd (updateNode (respond "{}") "s" 1 (JInt 2) [] world0))
              (match curl_ (cl (snd (updateNode (respond "{}") "s" 1 (JInt 2) [] world0))) with
               | Some h => h | None => [] end)
              (ltac:(vm_compute; reflexivity)) eq_refl eq_refl) as (h1 & H1 & H2).
  exists h1; split; [exact H1|]; rewrite H2; vm_compute; reflexivity.
Defined.

(** ** Failure values *)

(** what each public call returns when it gets no response text *)
Definition failure_value (c : api_call) : ret_val :=
  match c with
  | CCreateStructure _ _ _ _ => RBool false
  | CAddNode _ _ _ _ => RInt (-1)
  | CRemoveNode _ _ => RBool false
  | CUpdateNode _ _ _ _ => RBool false
  | CGetStructure _ => RJson JNull
  | CGetAllStructures => RList []
  | CGetMatrix => RJson JNull
  | CDeleteStructure _ => RBool false
  | CIsConnected => RBool false
  end.

Lemma empty_response_failure perform parse c w :
  parse "" = None -> response_of perform c w = Ok "" ->
  fst (run_op perform parse c w) = Ok (failure_value c).
Proof.
  intros Hp Hr; unfold response_of in Hr.
  destruct c; unfold run_op, fmap;
    [ unfold createStructure | unfold addNode | unfold removeNode
    | unfold updateNode | unfold getStructure | unfold getAllStructures
    | unfold getMatrix | unfold deleteStructure | unfold isConnected ];
    cbv zeta; through_response; cbv beta iota zeta delta [request_of] in Hr;
    rewrite Hr; cbv beta iota; unfold try_catch, bind, json_parse;
    try rewrite Hp; reflexivity.
Qed.

Lemma response_exc_run_op perform parse c w e :
  response_of perform c w = Exc e -> fst (run_op perform parse c w) = Exc e.
Proof.
  intros Hr; unfold response_of in Hr.
  destruct c; unfold run_op, fmap;
    [ unfold createStructure | unfold addNode | unfold removeNode
    | unfold updateNode | unfold getStructure | unfold getAllStructures
    | unfold getMatrix | unfold deleteStructure | unfold isConnected ];
    cbv zeta; through_response; cbv beta iota zeta delta [request_of] in Hr;
    rewrite Hr; reflexivity.
Qed.

(** X8. When [curl_easy_init] failed in the constructor, every public call
    returns its failure value ([false], [-1], [null] or an empty list) and
    raises nothing, not even for a body that cannot be serialised, since no
    body is built; [json::parse("")] is a parse error. *)
Theorem curl_init_failure_values perform parse c w :
  curl_ (cl w) = None -> parse "" = None ->
  fst (run_op perform parse c w) = Ok (failure_value c).
Proof.
  intros Hc Hp; apply empty_response_failure; [exact Hp|].
  unfold response_of; destruct (request_of c) as [[m e] d].
  unfold makeRequest, bind, get_client; simpl; rewrite Hc.
  unfold logError; simpl; destruct (verbose_ (cl w)); reflexivity.
Qed.

(** a client whose handle could not be created, asked to create a
    structure whose name is not UTF-8 *)
Lemma curl_init_failure_values_witness :
  curl_ (cl (mkWorld (new_client "http://localhost:5000" false) [] [])) = None /\
  json_parse_text "" = None /\
  fst (run_op (respond "{}") json_parse_text
         (CCreateStructure (str1 (ascii_of_nat 255)) "list" 1 0)
         (mkWorld (new_client "http://localhost:5000" false) [] [])) = Ok (RBool false).
Proof.
  split; [reflexivity|split; [vm_compute; reflexivity|]].
  apply (curl_init_failure_values (respond "{}") json_parse_text
           (CCreateStructure (str1 (ascii_of_nat 255)) "list" 1 0)
           (mkWorld (new_client "http://localhost:5000" false) [] []));
    [reflexivity | vm_compute; reflexivity].
Defined.

Lemma makeRequest_handle_down perform method endpoint data w h0 :
  curl_ (cl w) = Some h0 -> (forall h, perform h = None) ->
  fst (makeRequest perform method endpoint data w) =
  match body_method method, dump data with
  | true, None => Exc (type_error 316)
  | _, _ => Ok ""
  end.
Proof.
  intros Hc Hd; unfold makeRequest, bind, get_client, body_method; simpl; rewrite Hc.
  destruct (String.eqb method "POST" || String.eqb method "PUT").
  - destruct (dump data); simpl; [|reflexivity].
    rewrite Hd; unfold logError; destruct (verbose_ (cl w)); reflexivity.
  - destruct (String.eqb method "DELETE"); simpl; rewrite Hd; unfold logError;
      destruct (verbose_ (cl w)); destruct (dump data); reflexivity.
Qed.

(** X9. On a client with a curl handle, when no request gets through
    ([curl_easy_perform] fails every time), a POST or PUT whose body cannot
    be serialised raises [type_error] 316, and every other public call
    returns its failure value. *)
Theorem transport_failure_values perform parse c w h0 :
  curl_ (cl w) = Some h0 -> (forall h, perform h = None) -> parse "" = None ->
  fst (run_op perform parse c w) =
  let '(method, _, data) := request_of c in
  match body_method method, dump data with
  | true, None => Exc (type_error 316)
  | _, _ => Ok (failure_value c)
  end.
Proof.
  intros Hc Hd Hp.
  pose proof (empty_response_failure perform parse c w Hp) as Hf.
  pose proof (response_exc_run_op perform parse c w (type_error 316)) as He.
  unfold response_of in Hf, He.
  destruct (request_of c) as [[m ep] d].
  rewrite (makeRequest_handle_down perform m ep d w h0 Hc Hd) in Hf, He.
  destruct (body_method m), (dump d); auto.
Qed.

(** the transport is down: a name that is not UTF-8 makes
    [createStructure] raise, a listing returns the empty vector *)
Lemma transport_failure_values_witness :
  curl_ (cl world0) = Some [OPT_WRITEFUNCTION; OPT_TIMEOUT 10; OPT_CONNECTTIMEOUT 5] /\
  (forall h, transport_down h = None) /\ json_parse_text "" = None /\
  fst (run_op transport_down json_parse_text
         (CCreateStructure (str1 (ascii_of_nat 255)) "list" 1 0) world0) =
    Exc (type_error 316) /\
  fst (run_op transport_down json_parse_text CGetAllStructures world0) = Ok (RList []).
Proof.
  split; [reflexivity|split; [reflexivity|split; [vm_compute; reflexivity|split]]].
  - rewrite (transport_failure_values transport_down json_parse_text
               (CCreateStructure (str1 (ascii_of_nat 255)) "list" 1 0) world0
               [OPT_WRITEFUNCTION; OPT_TIMEOUT 10; OPT_CONNECTTIMEOUT 5]
               eq_refl (fun _ => eq_refl) ltac:(vm_compute; reflexivity)).
    vm_compute; reflexivity.
  - rewrite (transport_failure_values transport_down json_parse_text CGetAllStructures world0
               [OPT_WRITEFUNCTION; OPT_TIMEOUT 10; OPT_CONNECTTIMEOUT 5]
               eq_refl (fun _ => eq_refl) ltac:(vm_compute; reflexivity)).
    reflexivity.
Defined.

(** ** [WriteCallback] *)

Lemma substring_whole (s : string) : substring 0 (String.length s) s = s.
Proof. induction s as [|a s IH]; simpl; congruence. Qed.

Lemma string_app_nil_r (s : string) : s ++ "" = s.
Proof. induction s as [|a s IH]; simpl; congruence. Qed.

(** X11. When curl delivers a response body in chunks (each shorter than
    2^64 bytes), [WriteCallback] reports every chunk as fully consumed, so
    curl never aborts the transfer, and [response_data] ends up as what it
    held followed by the chunks in order. *)
Theorem WriteCallback_accumulates chunks data :
  Forall (fun c => Z.of_nat (String.length c) < 2 ^ 64) chunks ->
  deliver chunks data =
  (map (fun c => Z.of_nat (String.length c)) chunks, data ++ String.concat "" chunks).
Proof.
  revert data; induction chunks as [|c cs IH]; intros data Hf.
  - simpl; rewrite string_app_nil_r; reflexivity.
  - inversion Hf as [|? ? Hc Hcs]; subst.
    assert (E : (1 * Z.of_nat (String.length c)) mod 2 ^ 64 = Z.of_nat (String.length c))
      by (rewrite Z.mul_1_l; apply Z.mod_small; lia).
    cbn [deliver]; unfold WriteCallback; rewrite E.
    rewrite Nat2Z.id, substring_whole, (IH _ Hcs).
    f_equal; rewrite string_app_assoc.
    destruct cs as [|c' cs']; simpl; [rewrite string_app_nil_r; reflexivity|reflexivity].
Qed.

Lemma WriteCallback_accumulates_witness :
  Forall (fun c => Z.of_nat (String.length c) < 2 ^ 64) ["[1,"; "22]"] /\
  deliver ["[1,"; "22]"] "" = ([3; 3], "[1,22]").
Proof.
  split; [repeat constructor; vm_compute; reflexivity|].
  rewrite (WriteCallback_accumulates ["[1,"; "22]"] ""); [reflexivity|].
  repeat constructor; vm_compute; reflexivity.
Defined.

(** ** What a verbose client reports *)

(** the calls that decode their response with [json::parse] *)
Definition parses_response (c : api_call) : bool :=
  match c with
  | CAddNode _ _ _ _ | CGetStructure _ | CGetAllStructures | CGetMatrix => true
  | _ => false
  end.

Lemma makeRequest_down_log perform method endpoint data w r :
  (forall h, perform h = None) -> verbose_ (cl w) = true ->
  makeRequest perform method endpoint data w = (Ok r, snd (makeRequest perform method endpoint data w)) ->
  r = "" /\ verbose_ (cl (snd (makeRequest perform method endpoint data w))) = true /\
  exists msg, err_out (snd (makeRequest perform method endpoint data w)) =
              (err_out w ++ [("[VisualizerClient] " ++ msg)%string])%list.
Proof.
  intros Hd Hv; unfold makeRequest, bind, get_client, logError; simpl.
  destruct (curl_ (cl w)) as [h0|]; simpl; [|rewrite Hv; simpl; intros H; inversion H; eauto].
  destruct (String.eqb method "POST" || String.eqb method "PUT").
  - destruct (dump data); simpl; [|discriminate].
    rewrite Hd, Hv; simpl; intros H; inversion H; eauto.
  - destruct (String.eqb method "DELETE"); simpl;
      rewrite Hd, Hv; simpl; intros H; inversion H; eauto.
Qed.

Lemma bind_bind_ok {A B C} (m : M A) (k : A -> M B) (f : B -> M C) w r w1 :
  m w = (Ok r, w1) -> bind (bind m k) f w = bind (k r) f w1.
Proof. intros H; unfold bind; rewrite H; reflexivity. Qed.

Lemma bind_bind_exc {A B C} (m : M A) (k : A -> M B) (f : B -> M C) w e w1 :
  m w = (Exc e, w1) -> bind (bind m k) f w = (Exc e, w1).
Proof. intros H; unfold bind; rewrite H; reflexivity. Qed.

(** X13. A verbose client whose requests all fail (no handle, or
    [curl_easy_perform] failing) writes, for each call that completes, one
    line to [std::cerr] for the failed request and, for the calls that
    decode their response, a second line for the parse error of the empty
    text; every line starts with [[VisualizerClient] ]. *)
Theorem verbose_failure_lines perform parse c w v :
  (forall h, perform h = None) -> parse "" = None -> verbose_ (cl w) = true ->
  fst (run_op perform parse c w) = Ok v ->
  exists msgs,
    err_out (snd (run_op perform parse c w)) = (err_out w ++ msgs)%list /\
    List.length msgs = (if parses_response c then 2 else 1)%nat /\
    Forall (fun l => exists m, l = "[VisualizerClient] " ++ m) msgs.
Proof.
  intros Hd Hp Hv.
  destruct c; unfold run_op, fmap;
    [ unfold createStructure | unfold addNode | unfold removeNode
    | unfold updateNode | unfold getStructure | unfold getAllStructures
    | unfold getMatrix | unfold deleteStructure | unfold isConnected ];
    cbv zeta;
    match goal with
    | |- context [makeRequest ?p ?m ?ep ?d] =>
        pose proof (makeRequest_down_log p m ep d w) as Hl;
        destruct (makeRequest p m ep d w) as [[r|e] w1] eqn:E;
        [ rewrite (bind_bind_ok _ _ _ _ _ _ E);
          destruct (Hl r Hd Hv eq_refl) as (-> & Hv1 & msg & He); simpl in Hv1, He
        | rewrite (bind_bind_exc _ _ _ _ _ _ E); simpl; intros H; discriminate H ]
    end.
  all: unfold try_catch, bind, json_parse, logError; rewrite ?Hp; simpl; rewrite ?Hv1; simpl;
    intros _.
  all: rewrite He; first
    [ eexists; split; [reflexivity|]; split; [reflexivity|]; repeat constructor; eauto
    | eexists; rewrite <- app_assoc; split; [reflexivity|];
      split; [reflexivity|]; repeat constructor; eauto ].
Qed.

Lemma verbose_failure_lines_witness :
  (forall h, transport_down h = None) /\ json_parse_text "" = None /\
  verbose_ (cl (mkWorld (setVerbose true client0) [] [])) = true /\
  fst (run_op transport_down json_parse_text (CGetStructure "s")
         (mkWorld (setVerbose true client0) [] [])) = Ok (RJson JNull) /\
  List.length (err_out (snd (run_op transport_down json_parse_text (CGetStructure "s")
                              (mkWorld (setVerbose true client0) [] [])))) = 2%nat.
Proof.
  split; [reflexivity|split; [vm_compute; reflexivity|split; [reflexivity|split; [vm_compute; reflexivity|]]]].
  destruct (verbose_failure_lines transport_down json_parse_text (CGetStructure "s")
              (mkWorld (setVerbose true client0) [] []) (RJson JNull)
              (fun _ => eq_refl) ltac:(vm_compute; reflexivity) eq_refl
              ltac:(vm_compute; reflexivity)) as (msgs & He & Hl & _).
  rewrite He; simpl; exact Hl.
Defined.

(** ** The convenience macros *)

(** X14. [VIZ_ADD_NODE(s, value)] POSTs to
    [/api/live/structure/<name>/node] and [VIZ_UPDATE_NODE(s, id, value)]
    PUTs to [/api/live/structure/<name>/node/<id>] the same body text,
    [{"metadata":{},"value":<value.dump()>}]: the macros never send an
    index, and the body fails to serialise exactly when the value does.
    [VIZ_REMOVE_NODE(s, id)] sends a DELETE to the endpoint of
    [VIZ_UPDATE_NODE]. *)
Theorem viz_macros_body name id value :
  request_of (forward name (VIZ_ADD_NODE value)) =
    ("POST", "/api/live/structure/" ++ name ++ "/node", addNode_data value (-1) []) /\
  request_of (forward name (VIZ_UPDATE_NODE id value)) =
    ("PUT", "/api/live/structure/" ++ name ++ "/node/" ++ Z_to_string id,
     updateNode_data value []) /\
  request_of (forward name (VIZ_REMOVE_NODE id)) =
    ("DELETE", "/api/live/structure/" ++ name ++ "/node/" ++ Z_to_string id, JNull) /\
  dump (addNode_data value (-1) []) = dump (updateNode_data value []) /\
  dump (updateNode_data value []) =
    match dump value with
    | Some v => Some ("{" ++ quoted "metadata" ++ ":{}," ++ quoted "value" ++ ":" ++ v ++ "}")
    | None => None
    end.
Proof.
  split; [reflexivity|split; [reflexivity|split; [reflexivity|split; [reflexivity|]]]].
  rewrite updateNode_data_eq; simpl.
  destruct (dump value) as [v|]; reflexivity.
Qed.

(** ** A DELETE after a POST or PUT *)

(** the request body curl sends with a handle: the last
    [CURLOPT_POSTFIELDS] not followed by a [CURLOPT_HTTPGET] (which switches
    the handle back to a plain GET); scanned from the last option set *)
Fixpoint pending_body (rev_opts : list curl_opt) : option string :=
  match rev_opts with
  | [] => None
  | OPT_POSTFIELDS s :: _ => Some s
  | OPT_HTTPGET v :: r => if v =? 0 then pending_body r else None
  | _ :: r => pending_body r
  end.

Definition request_body (h : curl_handle) : option string := pending_body (rev h).

(** X15. [makeRequest] resets the request body only on the GET path: a
    DELETE that follows a POST or PUT of a body on the same client is
    performed with the custom method "DELETE" and still carries that
    body, as [CURLOPT_POSTFIELDS] (in the C++, a pointer into the
    [json_string] of the earlier call, freed when it returned), while a GET
    following it carries none. *)
Theorem delete_after_body_request perform m1 e1 d1 e2 d2 e3 d3 w h0 js :
  curl_ (cl w) = Some h0 -> body_method m1 = true -> dump d1 = Some js ->
  let w1 := snd (makeRequest perform m1 e1 d1 w) in
  (exists h, curl_ (cl (snd (makeRequest perform "DELETE" e2 d2 w1))) = Some h /\
             request_body h = Some js /\ last_custom_request h = Some "DELETE") /\
  (exists h, curl_ (cl (snd (makeRequest perform "GET" e3 d3 w1))) = Some h /\
             request_body h = None).
Proof.
  intros Hc Hb Hd; cbv zeta.
  unfold body_method in Hb.
  assert (H1 : curl_ (cl (snd (makeRequest perform m1 e1 d1 w))) =
               Some (h0 ++ [OPT_URL (base_url_ (cl w) ++ e1); OPT_WRITEDATA; OPT_POSTFIELDS js;
                            if String.eqb m1 "POST" then OPT_POST 1 else OPT_CUSTOMREQUEST "PUT";
                            OPT_HTTPHEADER ["Content-Type: application/json"]])%list).
  { unfold makeRequest, bind, get_client; simpl; rewrite Hc, Hb, Hd; simpl.
    rewrite <- !app_assoc; simpl.
    destruct (String.eqb m1 "POST"); simpl;
      destruct (perform _); simpl; [|unfold logError; destruct (verbose_ (cl w))|
                                    |unfold logError; destruct (verbose_ (cl w))];
      reflexivity. }
  set (w1 := snd (makeRequest perform m1 e1 d1 w)) in *.
  set (hp := (h0 ++ _)%list) in H1.
  split.
  - eexists; split.
    + unfold makeRequest, bind, get_client; simpl; rewrite H1; simpl.
      destruct (perform _); simpl; [|unfold logError; destruct (verbose_ (cl w1))];
        reflexivity.
    + unfold hp, request_body; rewrite !rev_app_distr; simpl.
      split; [destruct (String.eqb m1 "POST"); reflexivity|].
      rewrite !last_custom_request_app; reflexivity.
  - eexists; split.
    + unfold makeRequest, bind, get_client; simpl; rewrite H1; simpl.
      destruct (perform _); simpl; [|unfold logError; destruct (verbose_ (cl w1))];
        reflexivity.
    + unfold request_body; rewrite !rev_app_distr; reflexivity.
Qed.

(** [createStructure] followed by [removeNode], as [ManagedStructure] users do *)
Lemma delete_after_body_request_witness :
  curl_ (cl world0) = Some [OPT_WRITEFUNCTION; OPT_TIMEOUT 10; OPT_CONNECTTIMEOUT 5] /\
  body_method "POST" = true /\
  dump (JObj [("name", JStr "s")]) = Some ("{" ++ quoted "name" ++ ":" ++ quoted "s" ++ "}") /\
  exists h, curl_ (cl (snd (makeRequest (respond "{}") "DELETE" "/api/live/structure/s/node/1"
                               JNull (snd (makeRequest (respond "{}") "POST"
                                             "/api/live/structure" (JObj [("name", JStr "s")])
                                             world0))))) = Some h /\
            request_body h = Some ("{" ++ quoted "name" ++ ":" ++ quoted "s" ++ "}").
Proof.
  split; [reflexivity|split; [reflexivity|split; [reflexivity|]]].
  destruct (delete_after_body_request (respond "{}") "POST" "/api/live/structure"
              (JObj [("name", JStr "s")]) "/api/live/structure/s/node/1" JNull
              "/api/live/structures" JNull world0
              [OPT_WRITEFUNCTION; OPT_TIMEOUT 10; OPT_CONNECTTIMEOUT 5]
              ("{" ++ quoted "name" ++ ":" ++ quoted "s" ++ "}") eq_refl eq_refl eq_refl)
    as [(h & Hh & Hb & _) _].
  exists h; split; assumption.
Defined.
